(** * RxOnly web client: message window, reactions, cursors and read position

    A shallow embedding of the front-end message logic of RxOnly
    ([rxonly/web/static/js/rxonly.js], [messages.js], [views.js]) and the
    properties of its specification that can be settled on it.

    JavaScript values are modelled as follows.
    - Numbers that the code only stores, compares and prints (ids,
      timestamps, counts, pixel offsets) are [Z]; a nullable number is
      [option Z] and [null] is [None].
    - A string is the list of its UTF-16 code units ([jstring]).  In the
      message fields [text] and [from_node_short_name] the empty list also
      stands for [null]: every test of the code ([!text], [if (name)])
      treats the two alike.
    - [app_state] is a record; the DOM is reduced to the elements the code
      reads back: the [#messages-list] UL, its LI children with their data
      attributes and read class, and the tapback container of each LI.
      The flag [is_dm] that the DOM functions hand on only selects the link
      target of an element; links are not kept and the parameter is left
      out there.  The page size of a fetch is a constant and is left out of
      the request.
    - An [async] function is a [task]: a computation that either returned,
      threw, or is suspended on a fetch with a continuation that receives the
      response and the state of the page at the time of resumption. *)

From Stdlib Require Import ZArith List Lia Permutation.
From stdpp Require Import base option list gmap strings pretty.

Open Scope Z_scope.

(** ** JavaScript strings and comparisons *)

Module Js.

(** A string as its UTF-16 code units. *)
Definition jstring : Type := list N.

(** ECMAScript [WhiteSpace] and [LineTerminator] code points, the ones
    [String.prototype.trim] strips; all lie in the basic plane. *)
Definition is_white_space (c : N) : bool :=
  ((9 <=? c) && (c <=? 13) || (c =? 32) || (c =? 160) || (c =? 5760)
   || (8192 <=? c) && (c <=? 8202) || (c =? 8232) || (c =? 8233)
   || (c =? 8239) || (c =? 8287) || (c =? 12288) || (c =? 65279))%N.

Fixpoint trim_start (s : jstring) : jstring :=
  match s with
  | c :: s' => if is_white_space c then trim_start s' else s
  | [] => []
  end.

(** [s.trim()] *)
Definition trim (s : jstring) : jstring :=
  rev (trim_start (rev (trim_start s))).

(** [ToNumber] of a nullable number: [null] converts to [0]. *)
Definition to_number (v : option Z) : Z := default 0 v.

(** [a < b] and [a > b] on nullable numbers. *)
Definition less_than (a b : option Z) : bool :=
  bool_decide (to_number a < to_number b).
Definition greater_than (a b : option Z) : bool := less_than b a.

(** [a === b] on nullable numbers. *)
Definition strict_eq (a b : option Z) : bool := bool_decide (a = b).

(** Truthiness of a number: [0] (and [NaN], which no modelled value is)
    is falsy. *)
Definition truthy (n : Z) : bool := negb (n =? 0).

End Js.

Export Js.

(** ** Data received from the API *)

(** One entry of a page ([messages] or [direct_messages] rows).  [id] is the
    storage key, [message_id] the public identifier. *)
Record message : Type := Message {
  id : Z;
  message_id : Z;
  rx_time : option Z;
  text : jstring;
  reply_to : option Z;
  from_node_short_name : jstring;
}.

#[export] Instance message_eq_dec : EqDecision message.
Proof. solve_decision. Defined.

Record page_meta : Type := Meta {
  has_more_older : bool;
  has_more_newer : bool;
  total : Z;
}.

(** The JSON body of a page.  [rows] is the array under the key of the
    endpoint that was asked ([messages] for a channel, [direct_messages] for
    the direct messages); every reader in the code selects that key with the
    same flag the request was built from. *)
Record api_response : Type := Response {
  meta : page_meta;
  rows : list message;
}.

(** The options object handed to [fetch_message_page]. *)
Record fetch_request : Type := Request {
  req_is_dm : bool;
  req_channel_index : option Z;
  req_after_rx_time : option Z;
  req_before_rx_time : option Z;
  req_newest : bool;
}.

(** What the promise of [fetch_message_page] settles to: the parsed body, or
    a rejection with its error message. *)
Inductive fetch_result : Type :=
| FetchOk (data : api_response)
| FetchError (error_message : string).

(** ** Tapback (reaction) utilities *)

Module Tapback.

(** A child of a [.tapback-container]. *)
Inductive pill : Type :=
| TapbackPill (tapback_id : Z) (emoji : jstring) (author : option jstring)
    (* a.tapback-pill[data-tapback-id] *)
| GroupedPill (emoji : jstring) (count : nat)
    (* span.tapback-pill.tapback-grouped: emoji and count, not clickable *)
| OverflowPill (n : Z).
    (* span.tapback-pill.tapback-overflow: "+N more" *)

#[export] Instance pill_eq_dec : EqDecision pill.
Proof. solve_decision. Defined.

Section Emoji.

(** The two Unicode services of the browser that [is_emoji_only] calls:
    [Intl.Segmenter] with grapheme granularity, and the test of the
    pattern [\p{Extended_Pictographic}] on one segment. *)
Variable grapheme_segments : jstring -> list jstring.
Variable extended_pictographic : jstring -> bool.

Definition is_emoji_only (text : jstring) : bool :=
  match text with
  | [] => false
  | _ =>
    let trimmed := trim text in
    match trimmed with
    | [] => false
    | _ =>
      let segments := grapheme_segments trimmed in
      if bool_decide (length segments < 1)%nat || bool_decide (3 < length segments)%nat
      then false
      else forallb extended_pictographic segments
    end
  end.

(** A tapback is a reply whose text is emoji-only. *)
Definition is_tapback (m : message) : bool :=
  match reply_to m with
  | Some _ => is_emoji_only (text m)
  | None => false
  end.

End Emoji.

Definition create_tapback_pill (tapback : message) : pill :=
  TapbackPill (message_id tapback) (trim (text tapback))
    (match from_node_short_name tapback with
     | [] => None
     | name => Some name
     end).

Definition create_grouped_tapback (emoji : jstring) (count : nat) : pill :=
  GroupedPill emoji count.

(** [tapbacks.sort(function(a, b) { return (a.rx_time || 0) - (b.rx_time || 0); })]:
    the sort of an array is stable, so it is an insertion that keeps equal
    keys in their order of arrival. *)
Definition sort_key (m : message) : Z :=
  match rx_time m with
  | Some t => t
  | None => 0
  end.

Fixpoint sort_insert (m : message) (sorted : list message) : list message :=
  match sorted with
  | [] => [m]
  | x :: rest =>
    if sort_key m <? sort_key x then m :: x :: rest
    else x :: sort_insert m rest
  end.

Definition sort_by_rx_time (tapbacks : list message) : list message :=
  fold_left (fun sorted m => sort_insert m sorted) tapbacks [].

(** [if (!map.has(key)) map.set(key, []); map.get(key).push(value)] on a
    [Map], which keeps its keys in the order of their first insertion. *)
Fixpoint map_push {K V : Type} `{EqDecision K} (key : K) (value : V)
    (entries : list (K * list V)) : list (K * list V) :=
  match entries with
  | [] => [(key, [value])]
  | (k, g) :: rest =>
    if bool_decide (k = key) then (k, g ++ [value]) :: rest
    else (k, g) :: map_push key value rest
  end.

(** The [groups] map of [render_tapbacks], keyed by the trimmed text. *)
Definition group_by_emoji (tapbacks : list message) : list (jstring * list message) :=
  fold_left (fun groups t => map_push (trim (text t)) t groups) tapbacks [].

(** The pills of one group: a count pill when more than 5 share the emoji,
    otherwise one clickable pill per tapback. *)
Definition group_pills (group : jstring * list message) : list pill :=
  let (emoji, group_tapbacks) := group in
  if bool_decide (5 < length group_tapbacks)%nat
  then [create_grouped_tapback emoji (length group_tapbacks)]
  else map create_tapback_pill group_tapbacks.

Definition build_pills (tapbacks : list message) : list pill :=
  flat_map group_pills (group_by_emoji (sort_by_rx_time tapbacks)).

Definition max_pills : nat := 10.

(** [render_tapbacks(container, tapbacks, is_dm)]: the children of the
    container after the call.  ([is_dm] only selects the link target of a
    pill.) *)
Definition render_tapbacks (tapbacks : list message) : list pill :=
  match tapbacks with
  | [] => []
  | _ =>
    let pills := build_pills tapbacks in
    let overflow := Z.of_nat (length pills) - Z.of_nat max_pills in
    let visible_pills := if 0 <? overflow then take max_pills pills else pills in
    if 0 <? overflow then visible_pills ++ [OverflowPill overflow]
    else visible_pills
  end.

(** *** Counting *)

(** The reactions a badge stands for. *)
Definition referenced (p : pill) : nat :=
  match p with
  | TapbackPill _ _ _ => 1
  | GroupedPill _ count => count
  | OverflowPill _ => 0
  end.

Definition referenced_total (pills : list pill) : nat :=
  list_sum (map referenced pills).

Definition is_grouped (p : pill) : bool :=
  match p with
  | GroupedPill _ _ => true
  | _ => false
  end.

(** The reactions whose trimmed text is [emoji]. *)
Definition with_emoji (emoji : jstring) (tapbacks : list message) : list message :=
  List.filter (fun t => bool_decide (trim (text t) = emoji)) tapbacks.

Definition emoji_count (emoji : jstring) (tapbacks : list message) : nat :=
  length (with_emoji emoji tapbacks).

(** The array under a key, empty when the key is absent. *)
Fixpoint group_of (k : jstring) (groups : list (jstring * list message)) : list message :=
  match groups with
  | [] => []
  | (k', g) :: rest => if bool_decide (k' = k) then g else group_of k rest
  end.

Definition total_size (groups : list (jstring * list message)) : nat :=
  list_sum (map (fun kg => length kg.2) groups).

(** A badge stands for one reaction, or for more than five when it is a
    collapsed group. *)
Definition badge_ok (p : pill) : Prop :=
  if is_grouped p then (5 < referenced p)%nat else referenced p = 1%nat.

End Tapback.

Export Tapback.

(** ** The state of the page *)

Inductive view : Type :=
| ViewHome | ViewChannel | ViewNode | ViewDirectMessages | ViewMessage.

#[export] Instance view_eq_dec : EqDecision view.
Proof. solve_decision. Defined.

(** The fields of [app_state] that the message code reads or writes. *)
Record app_state : Type := AppState {
  current_view : view;
  current_channel_index : option Z;
  messages_has_more_older : bool;
  messages_has_more_newer : bool;
  messages_is_loading : bool;
  messages_oldest_rx_time : option Z;
  messages_newest_rx_time : option Z;
  messages_oldest_id : option Z;
  messages_newest_id : option Z;
  messages_is_dm : bool;
  messages_total : Z;
  saved_messages_scroll_top : option Z;
  saved_messages_is_mobile : bool;
  saved_messages_channel_index : option Z;
  saved_messages_is_dm : bool;
}.

(** A [.tapback-container]: its pills and the array kept as JSON in
    [dataset.tapbacks] (absent and empty read alike). *)
Record tapback_container : Type := TapbackContainer {
  tc_children : list pill;
  tc_tapbacks : list message;
}.

(** An LI of the messages list: [data-message-id], [data-rx-time], the
    [message-read] class and the tapback container of its article. *)
Record li : Type := Li {
  li_message_id : Z;
  li_rx_time : option Z;
  li_read : bool;
  li_tapbacks : option tapback_container;
}.

(** A scroll offset is known only through the assignments of the code: the
    heights are the browser's.  The value records the last assignment. *)
Inductive scroll_value : Type :=
| ScrollUntouched
| ScrollHeight                          (* [el.scrollTop = el.scrollHeight] *)
| ScrollPixels (top : Z)                (* a saved number *)
| ScrollPlusHeightDiff (before : scroll_value)
                                        (* [scrollTop += new_height - old_height] *)
| ScrollItemToStart (message_id : Z).   (* [li.scrollIntoView({ block: "start" })] *)

(** The UL [#messages-list]. *)
Record ul : Type := Ul {
  ul_items : list li;
  ul_scroll_top : scroll_value;
}.

(** What [#main-content] holds. *)
Inductive main_content : Type :=
| ContentOther
| ContentLoading
| ContentError (is_dm : bool) (error_message : string)
| ContentEmpty (heading : string)
| ContentMessages (heading : string) (messages_list : nat) (jump_hidden : bool).

(** The [template] elements of the page, which [populate_template] looks up
    by id.  The markup is not part of the scripts: a template that is present
    is taken to hold the elements the selectors of the code name (the LI with
    its [.message-item] article; the UL and the jump button). *)
Record templates : Type := Templates {
  template_message_item : bool;
  template_messages_list : bool;
  template_messages_empty : bool;
}.

(** A value under a last-read key of [localStorage]: the record written by
    [set_last_read], or anything else. *)
Inductive ls_value : Type :=
| LsOther
| LsLastRead (message_id : Z) (rx_time : option Z).

Record world : Type := World {
  app : app_state;
  elements : gmap nat ul;            (* every UL created, by identity *)
  content : main_content;
  pending_tapbacks : list (option Z * list message);
                                     (* the Map, in insertion order *)
  local_storage : option (gmap string ls_value);
                                     (* [None]: storage access throws *)
  page_templates : templates;
  mobile_layout : bool;              (* overflow-y of the list is "visible" *)
  window_scroll : scroll_value;
}.

(** *** Field updates *)

Definition with_app (f : app_state -> app_state) (w : world) : world :=
  World (f (app w)) (elements w) (content w) (pending_tapbacks w)
    (local_storage w) (page_templates w) (mobile_layout w) (window_scroll w).

Definition with_elements (f : gmap nat ul -> gmap nat ul) (w : world) : world :=
  World (app w) (f (elements w)) (content w) (pending_tapbacks w)
    (local_storage w) (page_templates w) (mobile_layout w) (window_scroll w).

Definition set_content (c : main_content) (w : world) : world :=
  World (app w) (elements w) c (pending_tapbacks w)
    (local_storage w) (page_templates w) (mobile_layout w) (window_scroll w).

Definition set_pending_tapbacks (p : list (option Z * list message)) (w : world) : world :=
  World (app w) (elements w) (content w) p
    (local_storage w) (page_templates w) (mobile_layout w) (window_scroll w).

Definition set_local_storage (s : option (gmap string ls_value)) (w : world) : world :=
  World (app w) (elements w) (content w) (pending_tapbacks w)
    s (page_templates w) (mobile_layout w) (window_scroll w).

Definition set_window_scroll (v : scroll_value) (w : world) : world :=
  World (app w) (elements w) (content w) (pending_tapbacks w)
    (local_storage w) (page_templates w) (mobile_layout w) v.

Definition set_has_more_older (b : bool) (s : app_state) : app_state :=
  AppState (current_view s) (current_channel_index s) b (messages_has_more_newer s)
    (messages_is_loading s) (messages_oldest_rx_time s) (messages_newest_rx_time s)
    (messages_oldest_id s) (messages_newest_id s) (messages_is_dm s) (messages_total s)
    (saved_messages_scroll_top s) (saved_messages_is_mobile s)
    (saved_messages_channel_index s) (saved_messages_is_dm s).

Definition set_has_more_newer (b : bool) (s : app_state) : app_state :=
  AppState (current_view s) (current_channel_index s) (messages_has_more_older s) b
    (messages_is_loading s) (messages_oldest_rx_time s) (messages_newest_rx_time s)
    (messages_oldest_id s) (messages_newest_id s) (messages_is_dm s) (messages_total s)
    (saved_messages_scroll_top s) (saved_messages_is_mobile s)
    (saved_messages_channel_index s) (saved_messages_is_dm s).

Definition set_is_loading (b : bool) (s : app_state) : app_state :=
  AppState (current_view s) (current_channel_index s) (messages_has_more_older s)
    (messages_has_more_newer s) b (messages_oldest_rx_time s) (messages_newest_rx_time s)
    (messages_oldest_id s) (messages_newest_id s) (messages_is_dm s) (messages_total s)
    (saved_messages_scroll_top s) (saved_messages_is_mobile s)
    (saved_messages_channel_index s) (saved_messages_is_dm s).

Definition set_oldest_rx_time (v : option Z) (s : app_state) : app_state :=
  AppState (current_view s) (current_channel_index s) (messages_has_more_older s)
    (messages_has_more_newer s) (messages_is_loading s) v (messages_newest_rx_time s)
    (messages_oldest_id s) (messages_newest_id s) (messages_is_dm s) (messages_total s)
    (saved_messages_scroll_top s) (saved_messages_is_mobile s)
    (saved_messages_channel_index s) (saved_messages_is_dm s).

Definition set_newest_rx_time (v : option Z) (s : app_state) : app_state :=
  AppState (current_view s) (current_channel_index s) (messages_has_more_older s)
    (messages_has_more_newer s) (messages_is_loading s) (messages_oldest_rx_time s) v
    (messages_oldest_id s) (messages_newest_id s) (messages_is_dm s) (messages_total s)
    (saved_messages_scroll_top s) (saved_messages_is_mobile s)
    (saved_messages_channel_index s) (saved_messages_is_dm s).

Definition set_oldest_id (v : option Z) (s : app_state) : app_state :=
  AppState (current_view s) (current_channel_index s) (messages_has_more_older s)
    (messages_has_more_newer s) (messages_is_loading s) (messages_oldest_rx_time s)
    (messages_newest_rx_time s) v (messages_newest_id s) (messages_is_dm s)
    (messages_total s) (saved_messages_scroll_top s) (saved_messages_is_mobile s)
    (saved_messages_channel_index s) (saved_messages_is_dm s).

Definition set_newest_id (v : option Z) (s : app_state) : app_state :=
  AppState (current_view s) (current_channel_index s) (messages_has_more_older s)
    (messages_has_more_newer s) (messages_is_loading s) (messages_oldest_rx_time s)
    (messages_newest_rx_time s) (messages_oldest_id s) v (messages_is_dm s)
    (messages_total s) (saved_messages_scroll_top s) (saved_messages_is_mobile s)
    (saved_messages_channel_index s) (saved_messages_is_dm s).

Definition set_is_dm (b : bool) (s : app_state) : app_state :=
  AppState (current_view s) (current_channel_index s) (messages_has_more_older s)
    (messages_has_more_newer s) (messages_is_loading s) (messages_oldest_rx_time s)
    (messages_newest_rx_time s) (messages_oldest_id s) (messages_newest_id s) b
    (messages_total s) (saved_messages_scroll_top s) (saved_messages_is_mobile s)
    (saved_messages_channel_index s) (saved_messages_is_dm s).

Definition set_total (n : Z) (s : app_state) : app_state :=
  AppState (current_view s) (current_channel_index s) (messages_has_more_older s)
    (messages_has_more_newer s) (messages_is_loading s) (messages_oldest_rx_time s)
    (messages_newest_rx_time s) (messages_oldest_id s) (messages_newest_id s)
    (messages_is_dm s) n (saved_messages_scroll_top s) (saved_messages_is_mobile s)
    (saved_messages_channel_index s) (saved_messages_is_dm s).

Definition set_saved_scroll (top : option Z) (is_mobile : bool)
    (channel_index : option Z) (is_dm : bool) (s : app_state) : app_state :=
  AppState (current_view s) (current_channel_index s) (messages_has_more_older s)
    (messages_has_more_newer s) (messages_is_loading s) (messages_oldest_rx_time s)
    (messages_newest_rx_time s) (messages_oldest_id s) (messages_newest_id s)
    (messages_is_dm s) (messages_total s) top is_mobile channel_index is_dm.

(** [document.getElementById("messages-list")]: the identity of the UL in
    the document, if the content area shows a list. *)
Definition get_messages_list (w : world) : option nat :=
  match content w with
  | ContentMessages _ r _ => Some r
  | _ => None
  end.

(** The LI children of the list in the document: the materialized window. *)
Definition window (w : world) : list li :=
  match get_messages_list w with
  | Some r =>
    match elements w !! r with
    | Some u => ul_items u
    | None => []
    end
  | None => []
  end.

Definition window_ids (w : world) : list Z := map li_message_id (window w).

(** Rewrite the children of one UL. *)
Definition update_items (r : nat) (f : list li -> list li) (w : world) : world :=
  with_elements (alter (fun u => Ul (f (ul_items u)) (ul_scroll_top u)) r) w.

Definition set_scroll_top (r : nat) (v : scroll_value) (w : world) : world :=
  with_elements (alter (fun u => Ul (ul_items u) v) r) w.

(** ** Read tracking and scroll preservation ([rxonly.js]) *)

Module ReadTracking.

Definition build_last_read_key (is_dm : bool) (channel_index : option Z) : string :=
  if is_dm then "rxonly_last_read_dm"
  else "rxonly_last_read_ch_" +:+
       match channel_index with
       | Some c => pretty c
       | None => "null"
       end.

(** The stored position: both fields are numbers. *)
Record read_position : Type := ReadPosition {
  rp_message_id : Z;
  rp_rx_time : Z;
}.

(** A missing, unreadable or malformed record is no position. *)
Definition get_last_read (is_dm : bool) (channel_index : option Z) (w : world)
    : option read_position :=
  match local_storage w with
  | None => None
  | Some store =>
    match store !! build_last_read_key is_dm channel_index with
    | Some (LsLastRead mid (Some rx)) => Some (ReadPosition mid rx)
    | _ => None
    end
  end.

(** Fails silently when the storage is unavailable. *)
Definition set_last_read (is_dm : bool) (channel_index : option Z)
    (message_id : Z) (rx_time : option Z) (w : world) : world :=
  match local_storage w with
  | None => w
  | Some store =>
    set_local_storage
      (Some (<[build_last_read_key is_dm channel_index := LsLastRead message_id rx_time]> store)) w
  end.

Definition mark_message_read (item : li) : li :=
  Li (li_message_id item) (li_rx_time item) true (li_tapbacks item).

(** What [getBoundingClientRect] reports during one scan: the bottom edge
    of the list and the top edge of its [i]-th item. *)
Record layout : Type := Layout {
  container_bottom : Z;
  item_top : nat -> Z;
}.

(** The loop of [update_read_position]: mark the items whose top lies above
    the bottom of the list, stop at the first that does not, and keep the
    last one marked. *)
Fixpoint scan_visible (lay : layout) (i : nat) (items : list li) (last_read_item : option li)
    : list li * option li :=
  match items with
  | [] => ([], last_read_item)
  | item :: rest =>
    if item_top lay i <? container_bottom lay then
      let item' := mark_message_read item in
      let (rest', found) := scan_visible lay (S i) rest (Some item') in
      (item' :: rest', found)
    else (item :: rest, last_read_item)
  end.

(** The test that guards the write of [update_read_position]. *)
Definition is_newer_than (current : option read_position) (msg_id rx_time : Z) : bool :=
  match current with
  | None => true
  | Some cur =>
    (rp_rx_time cur <? rx_time)
    || ((rx_time =? rp_rx_time cur) && (rp_message_id cur <? msg_id))
  end.

Definition update_read_position (lay : layout) (w : world) : world :=
  match get_messages_list w with
  | None => w
  | Some r =>
    match elements w !! r with
    | None => w
    | Some u =>
      let (items', last_read_item) := scan_visible lay 0 (ul_items u) None in
      let w1 := update_items r (fun _ => items') w in
      match last_read_item with
      | None => w1
      | Some item =>
        let msg_id := li_message_id item in
        let rx_time := to_number (li_rx_time item) in
        if truthy msg_id && truthy rx_time then
          let is_dm := messages_is_dm (app w1) in
          let channel_index := current_channel_index (app w1) in
          if is_newer_than (get_last_read is_dm channel_index w1) msg_id rx_time
          then set_last_read is_dm channel_index msg_id (Some rx_time) w1
          else w1
        else w1
      end
    end
  end.

(** Stamp the items up to and including the stored position. *)
Definition mark_read_up_to (r : nat) (last_read : option read_position) (w : world) : world :=
  match last_read with
  | None => w
  | Some pos =>
    update_items r
      (map (fun item =>
              let rx := to_number (li_rx_time item) in
              let mid := li_message_id item in
              if (rx <? rp_rx_time pos) || ((rx =? rp_rx_time pos) && (mid <=? rp_message_id pos))
              then mark_message_read item else item)) w
  end.

(** [scroll_pos] is the offset the browser reports at that moment
    ([window.scrollY] on the mobile layout, [scrollTop] of the list
    otherwise). *)
Definition save_read_position_before_leave (lay : layout) (scroll_pos : Z) (w : world) : world :=
  match current_view (app w) with
  | ViewChannel | ViewDirectMessages =>
    let w1 := update_read_position lay w in
    match get_messages_list w1 with
    | None => w1
    | Some _ =>
      if 0 <? scroll_pos then
        with_app (fun s =>
          set_saved_scroll (Some scroll_pos) (mobile_layout w1) (current_channel_index s)
            (bool_decide (current_view s = ViewDirectMessages)) s) w1
      else w1
    end
  | _ => w
  end.

Definition clear_saved_scroll_position (s : app_state) : app_state :=
  set_saved_scroll None false None false s.

Record saved_scroll : Type := SavedScroll {
  scroll_top : Z;
  is_mobile : bool;
}.

(** Returns the saved position, or [None] for [null], and the state after
    the call. *)
Definition consume_saved_scroll_position (is_dm : bool) (channel_index : option Z)
    (s : app_state) : option saved_scroll * app_state :=
  match saved_messages_scroll_top s with
  | None => (None, s)
  | Some top =>
    if negb (bool_decide (saved_messages_is_dm s = is_dm)) then
      (None, clear_saved_scroll_position s)
    else if negb is_dm && negb (bool_decide (saved_messages_channel_index s = channel_index)) then
      (None, clear_saved_scroll_position s)
    else
      (Some (SavedScroll top (saved_messages_is_mobile s)), clear_saved_scroll_position s)
  end.

(** The order of read positions: by [rx_time], then by [message_id]. *)
Definition position_lt (a b : read_position) : Prop :=
  rp_rx_time a < rp_rx_time b \/
  (rp_rx_time a = rp_rx_time b /\ rp_message_id a < rp_message_id b).

Definition position_le (a b : read_position) : Prop :=
  a = b \/ position_lt a b.

(** The pair that [update_read_position] reads off an item. *)
Definition item_position (item : li) : read_position :=
  ReadPosition (li_message_id item) (to_number (li_rx_time item)).

(** The item that a scan would commit: the last one in view. *)
Definition read_candidate (lay : layout) (w : world) : option li :=
  (scan_visible lay 0 (window w) None).2.

(** The stored position of the conversation on display. *)
Definition stored_position (w : world) : option read_position :=
  get_last_read (messages_is_dm (app w)) (current_channel_index (app w)) w.

(** The saved context is the one asked for: same [is_dm], and for a
    channel the same [channel_index]. *)
Definition saved_context_matches (is_dm : bool) (channel_index : option Z)
    (s : app_state) : Prop :=
  saved_messages_is_dm s = is_dm /\
  (is_dm = false -> saved_messages_channel_index s = channel_index).

End ReadTracking.

Export ReadTracking.

(** ** Cursor state ([rxonly.js]) *)

Module Cursor.

(** [update_message_cursors(data, is_dm)] *)
Definition update_message_cursors (data : api_response) (s : app_state) : app_state :=
  let s := set_has_more_older (has_more_older (meta data)) s in
  let s := set_has_more_newer (has_more_newer (meta data)) s in
  let s := set_total (total (meta data)) s in
  match rows data with
  | [] => s
  | first :: _ =>
    let last := List.last (rows data) first in
    let s :=
      if strict_eq (messages_oldest_rx_time s) None
         || less_than (rx_time first) (messages_oldest_rx_time s)
         || (strict_eq (rx_time first) (messages_oldest_rx_time s)
             && less_than (Some (id first)) (messages_oldest_id s))
      then set_oldest_id (Some (id first)) (set_oldest_rx_time (rx_time first) s)
      else s in
    if strict_eq (messages_newest_rx_time s) None
       || greater_than (rx_time last) (messages_newest_rx_time s)
       || (strict_eq (rx_time last) (messages_newest_rx_time s)
           && greater_than (Some (id last)) (messages_newest_id s))
    then set_newest_id (Some (id last)) (set_newest_rx_time (rx_time last) s)
    else s
  end.

(** The app-state part of [reset_message_state]. *)
Definition reset_cursor_fields (s : app_state) : app_state :=
  set_total 0
    (set_newest_id None (set_oldest_id None
      (set_newest_rx_time None (set_oldest_rx_time None
        (set_is_loading false (set_has_more_newer false (set_has_more_older false s))))))).

(** [reset_message_state()]: the cursor fields, then
    [clear_pending_tapbacks()]. *)
Definition reset_message_state (w : world) : world :=
  set_pending_tapbacks [] (with_app reset_cursor_fields w).

(** The boundary keys [(rx_time, id)] as the comparisons of the code see
    them, and their order. *)
Definition oldest_key (s : app_state) : Z * Z :=
  (to_number (messages_oldest_rx_time s), to_number (messages_oldest_id s)).

Definition newest_key (s : app_state) : Z * Z :=
  (to_number (messages_newest_rx_time s), to_number (messages_newest_id s)).

Definition key_lt (a b : Z * Z) : Prop :=
  a.1 < b.1 \/ (a.1 = b.1 /\ a.2 < b.2).

Definition key_le (a b : Z * Z) : Prop := a = b \/ key_lt a b.

End Cursor.

Export Cursor.

(** ** Message list ([messages.js]) *)

Module Messages.

Section Browser.

Variable grapheme_segments : jstring -> list jstring.
Variable extended_pictographic : jstring -> bool.

Local Abbreviation is_tapback := (Tapback.is_tapback grapheme_segments extended_pictographic).

Definition clear_pending_tapbacks (w : world) : world :=
  set_pending_tapbacks [] w.

(** The key is [String(tapback.reply_to)]. *)
Definition store_pending_tapback (tapback : message) (w : world) : world :=
  set_pending_tapbacks (map_push (reply_to tapback) tapback (pending_tapbacks w)) w.

(** The ids that [container.querySelectorAll("[data-tapback-id]")]
    yields: only the clickable pills carry the attribute. *)
Definition existing_tapback_ids (children : list pill) : list Z :=
  omap (fun p => match p with
                 | TapbackPill tid _ _ => Some tid
                 | _ => None
                 end) children.

(** [document.querySelector('#messages-list li[data-message-id="' + parent_id + '"]')]:
    the first LI of the list in the document whose id prints as
    [parent_id], with its position. *)
Definition find_message_li (parent_id : option Z) (w : world) : option (nat * nat * li) :=
  match get_messages_list w with
  | None => None
  | Some r =>
    match elements w !! r with
    | None => None
    | Some u =>
      match list_find (fun item => Some (li_message_id item) = parent_id) (ul_items u) with
      | Some (i, item) => Some (r, i, item)
      | None => None
      end
    end
  end.

(** [attach_tapback_to_parent(tapback, is_dm)]: whether the parent was
    found, and the page afterwards.  On the early return for a duplicate
    the container already existed (a new one has no pill), so the page is
    as it was. *)
Definition attach_tapback_to_parent (tapback : message) (w : world) : bool * world :=
  match find_message_li (reply_to tapback) w with
  | None => (false, w)
  | Some (r, i, parent_li) =>
    let container := default (TapbackContainer [] []) (li_tapbacks parent_li) in
    let existing := existing_tapback_ids (tc_children container) in
    if bool_decide (message_id tapback ∈ existing) then (true, w)
    else
      let all_tapbacks := tc_tapbacks container ++ [tapback] in
      let container' := TapbackContainer (render_tapbacks all_tapbacks) all_tapbacks in
      let parent_li' :=
        Li (li_message_id parent_li) (li_rx_time parent_li) (li_read parent_li)
           (Some container') in
      (true, update_items r (fun items => <[i := parent_li']> items) w)
  end.

Definition attach_all (tapbacks : list message) (w : world) : world :=
  fold_left (fun w t => (attach_tapback_to_parent t w).2) tapbacks w.

(** [flush_pending_tapbacks(is_dm)] *)
Definition flush_pending_tapbacks (w : world) : world :=
  match pending_tapbacks w with
  | [] => w
  | pending =>
    let '(w', resolved_parents) :=
      fold_left
        (fun '(w, resolved) '(parent_id, tapbacks) =>
           match find_message_li parent_id w with
           | Some _ => (attach_all tapbacks w, resolved ++ [parent_id])
           | None => (w, resolved)
           end)
        pending (w, []) in
    set_pending_tapbacks
      (List.filter (fun '(k, _) => negb (bool_decide (k ∈ resolved_parents)))
                   (pending_tapbacks w'))
      w'
  end.

(** [create_message_item(message, is_dm)]: the LI of the populated
    template, unread and without a tapback container, or [None] when the
    template is missing. *)
Definition create_message_item (m : message) (w : world) : option li :=
  if template_message_item (page_templates w)
  then Some (Li (message_id m) (rx_time m) false None)
  else None.

Definition update_jump_to_newest_button (w : world) : world :=
  match content w with
  | ContentMessages heading r _ =>
    set_content
      (ContentMessages heading r (negb (messages_has_more_newer (app w)))) w
  | _ => w
  end.

(** The tapbacks of a page, after its normal messages are in place:
    attach each to its parent or keep it pending, then flush. *)
Definition attach_or_store (tapbacks : list message) (w : world) : world :=
  fold_left
    (fun w tapback =>
       let '(attached, w') := attach_tapback_to_parent tapback w in
       if attached then w' else store_pending_tapback tapback w')
    tapbacks w.

(** [append_messages_to_list(messages_ul, messages, is_dm)] *)
Definition append_messages_to_list (messages_ul : nat) (page : list message)
    (w : world) : world :=
  let normal := List.filter (fun m => negb (is_tapback m)) page in
  let tapbacks := List.filter is_tapback page in
  let fragment := omap (fun m => create_message_item m w) normal in
  let w := update_items messages_ul (fun items => items ++ fragment) w in
  let w := attach_or_store tapbacks w in
  flush_pending_tapbacks w.

(** [prepend_messages_to_list(messages_ul, messages, is_dm)] *)
Definition prepend_messages_to_list (messages_ul : nat) (page : list message)
    (w : world) : world :=
  let normal := List.filter (fun m => negb (is_tapback m)) page in
  let tapbacks := List.filter is_tapback page in
  let fragment := omap (fun m => create_message_item m w) normal in
  let fragment := map mark_message_read fragment in
  let w := update_items messages_ul (fun items => fragment ++ items) w in
  let w := attach_or_store tapbacks w in
  let w := flush_pending_tapbacks w in
  if mobile_layout w
  then set_window_scroll (ScrollPlusHeightDiff (window_scroll w)) w
  else with_elements
         (alter (fun u => Ul (ul_items u) (ScrollPlusHeightDiff (ul_scroll_top u)))
                messages_ul) w.

(** [render_messages_dom(heading_text, messages, is_dm)]: the list is
    filled while it is not yet in the document, then put in place. *)
Definition render_messages_dom (heading_text : string) (page : list message)
    (w : world) : world :=
  if template_messages_list (page_templates w) then
    let messages_ul := fresh (dom (elements w)) in
    let w := with_elements (insert messages_ul (Ul [] ScrollUntouched)) w in
    let w := append_messages_to_list messages_ul page w in
    let w := set_content (ContentMessages heading_text messages_ul true) w in
    let w := flush_pending_tapbacks w in
    update_jump_to_newest_button w
  else w.

(** *** Asynchronous operations

    An [async] function runs until its next [await] of a fetch.  While it
    is suspended other handlers run, so its continuation receives, with
    the response, the page as it is when the function resumes. *)
Inductive task : Type :=
| Return (w : world)
| Throw (error_message : string) (w : world)
| Await (request : fetch_request) (w : world) (k : fetch_result -> world -> task).

(** [try { body } catch (error) { handler }] around the rest of a task. *)
Fixpoint try_catch (body : task) (handler : string -> world -> world) : task :=
  match body with
  | Return w => Return w
  | Throw e w => Return (handler e w)
  | Await request w k => Await request w (fun res w' => try_catch (k res w') handler)
  end.

(** [scroll_to_last_read(message_id)] *)
Definition scroll_to_last_read (message_id : Z) (w : world) : world :=
  match find_message_li (Some message_id) w with
  | Some (r, _, _) => set_scroll_top r (ScrollItemToStart message_id) w
  | None => w
  end.

(** [render_messages_fresh(is_dm, channel_index, heading_text)]: it has
    no handler of its own, a rejected fetch is thrown to the caller. *)
Definition render_messages_fresh (is_dm : bool) (channel_index : option Z)
    (heading_text : string) (w : world) : task :=
  Await (Request is_dm channel_index None None true) w (fun res w =>
    match res with
    | FetchError e => Throw e w
    | FetchOk data =>
      match rows data with
      | [] =>
        Return (if template_messages_empty (page_templates w)
                then set_content (ContentEmpty heading_text) w
                else w)
      | first :: _ =>
        let w := with_app (update_message_cursors data) w in
        let w := render_messages_dom heading_text (rows data) w in
        let messages_ul := get_messages_list w in
        let w := match messages_ul with
                 | Some r => update_items r (map mark_message_read) w
                 | None => w
                 end in
        let newest_msg := List.last (rows data) first in
        let w := set_last_read is_dm channel_index
                   (message_id newest_msg) (rx_time newest_msg) w in
        Return (match messages_ul with
                | Some r => set_scroll_top r ScrollHeight w
                | None => w
                end)
      end
    end).

Record view_options : Type := ViewOptions {
  opt_is_dm : bool;
  opt_channel_index : option Z;
  opt_heading : string;
}.

(** [render_messages_view(options)] *)
Definition render_messages_view (options : view_options) (w : world) : task :=
  let is_dm := opt_is_dm options in
  let channel_index := opt_channel_index options in
  let heading_text := opt_heading options in
  let w := reset_message_state w in
  let w := with_app (set_is_dm is_dm) w in
  let w := set_content ContentLoading w in
  try_catch
    (match get_last_read is_dm channel_index w with
     | Some last_read =>
       Await (Request is_dm channel_index None (Some (rp_rx_time last_read + 1)) false) w
         (fun res w =>
            match res with
            | FetchError e => Throw e w
            | FetchOk context_data =>
              match rows context_data with
              | [] => render_messages_fresh is_dm channel_index heading_text w
              | _ =>
                Await (Request is_dm channel_index (Some (rp_rx_time last_read)) None false) w
                  (fun res w =>
                     match res with
                     | FetchError e => Throw e w
                     | FetchOk newer_data =>
                       let all_messages := rows context_data ++ rows newer_data in
                       let w := with_app (update_message_cursors context_data) w in
                       let w := with_app (update_message_cursors newer_data) w in
                       let w := with_app (set_has_more_newer
                                            (has_more_newer (meta newer_data))) w in
                       let w := with_app (set_has_more_older
                                            (has_more_older (meta context_data))) w in
                       let w := render_messages_dom heading_text all_messages w in
                       let messages_ul := get_messages_list w in
                       let w := match messages_ul with
                                | Some r => mark_read_up_to r (Some last_read) w
                                | None => w
                                end in
                       let '(saved_scroll, s) :=
                         consume_saved_scroll_position is_dm channel_index (app w) in
                       let w := with_app (fun _ => s) w in
                       Return
                         (match saved_scroll, messages_ul with
                          | Some saved, Some r =>
                            if is_mobile saved
                            then set_window_scroll (ScrollPixels (scroll_top saved)) w
                            else set_scroll_top r (ScrollPixels (scroll_top saved)) w
                          | _, _ => scroll_to_last_read (rp_message_id last_read) w
                          end)
                     end)
              end
            end)
     | None => render_messages_fresh is_dm channel_index heading_text w
     end)
    (fun e w => set_content (ContentError is_dm e) w).

(** [handle_jump_to_newest()] *)
Definition handle_jump_to_newest (w : world) : task :=
  match get_messages_list w with
  | None => Return w
  | Some messages_list =>
    if messages_is_loading (app w) then Return w
    else
      let w := with_app (set_is_loading true) w in
      let w := clear_pending_tapbacks w in
      let is_dm := messages_is_dm (app w) in
      let channel_index := current_channel_index (app w) in
      Await (Request is_dm channel_index None None true) w (fun res w =>
        match res with
        | FetchError _ => Return (with_app (set_is_loading false) w)
        | FetchOk data =>
          let w := with_app (fun s =>
                     set_newest_id None (set_oldest_id None
                       (set_newest_rx_time None (set_oldest_rx_time None s)))) w in
          let w := with_app (update_message_cursors data) w in
          let w := update_items messages_list (fun _ => []) w in
          let w := append_messages_to_list messages_list (rows data) w in
          let w := update_items messages_list (map mark_message_read) w in
          let w := set_scroll_top messages_list ScrollHeight w in
          let w := match rows data with
                   | [] => w
                   | first :: _ =>
                     let newest_msg := List.last (rows data) first in
                     set_last_read is_dm channel_index
                       (message_id newest_msg) (rx_time newest_msg) w
                   end in
          let w := update_jump_to_newest_button w in
          Return (with_app (set_is_loading false) w)
        end)
  end.

(** [load_older_messages()] *)
Definition load_older_messages (w : world) : task :=
  if messages_is_loading (app w) || negb (messages_has_more_older (app w)) then Return w
  else if strict_eq (messages_oldest_rx_time (app w)) None then Return w
  else
    match get_messages_list w with
    | None => Return w
    | Some messages_list =>
      let w := with_app (set_is_loading true) w in
      let is_dm := messages_is_dm (app w) in
      let channel_index := current_channel_index (app w) in
      Await (Request is_dm channel_index None (messages_oldest_rx_time (app w)) false) w
        (fun res w =>
           match res with
           | FetchError _ => Return (with_app (set_is_loading false) w)
           | FetchOk data =>
             let w :=
               match rows data with
               | first :: _ =>
                 let w := with_app (set_has_more_older (has_more_older (meta data))) w in
                 let w := with_app (set_oldest_rx_time (rx_time first)) w in
                 let w := with_app (set_oldest_id (Some (id first))) w in
                 prepend_messages_to_list messages_list (rows data) w
               | [] => with_app (set_has_more_older false) w
               end in
             Return (with_app (set_is_loading false) w)
           end)
    end.

(** [load_newer_messages()] *)
Definition load_newer_messages (w : world) : task :=
  if messages_is_loading (app w) || negb (messages_has_more_newer (app w)) then Return w
  else if strict_eq (messages_newest_rx_time (app w)) None then Return w
  else
    match get_messages_list w with
    | None => Return w
    | Some messages_list =>
      let w := with_app (set_is_loading true) w in
      let is_dm := messages_is_dm (app w) in
      let channel_index := current_channel_index (app w) in
      Await (Request is_dm channel_index (messages_newest_rx_time (app w)) None false) w
        (fun res w =>
           match res with
           | FetchError _ => Return (with_app (set_is_loading false) w)
           | FetchOk data =>
             let w :=
               match rows data with
               | first :: _ =>
                 let w := with_app (set_has_more_newer (has_more_newer (meta data))) w in
                 let last := List.last (rows data) first in
                 let w := with_app (set_newest_rx_time (rx_time last)) w in
                 let w := with_app (set_newest_id (Some (id last))) w in
                 append_messages_to_list messages_list (rows data) w
               | [] => with_app (set_has_more_newer false) w
               end in
             let w := update_jump_to_newest_button w in
             Return (with_app (set_is_loading false) w)
           end)
    end.

(** [update_messages_list(is_direct_messages)] of [views.js]: the poll. *)
Definition update_messages_list (is_direct_messages : bool) (w : world) : task :=
  match get_messages_list w with
  | None => Return w
  | Some messages_list =>
    if messages_is_loading (app w) then Return w
    else if strict_eq (messages_newest_rx_time (app w)) None then Return w
    else
      Await (Request is_direct_messages
               (if is_direct_messages then None else current_channel_index (app w))
               (messages_newest_rx_time (app w)) None false) w
        (fun res w =>
           match res with
           | FetchError _ => Return w
           | FetchOk data =>
             let w :=
               match rows data with
               | first :: _ =>
                 let last := List.last (rows data) first in
                 let w := with_app (set_newest_rx_time (rx_time last)) w in
                 let w := with_app (set_newest_id (Some (id last))) w in
                 append_messages_to_list messages_list (rows data) w
               | [] => w
               end in
             let w := with_app (set_has_more_newer (has_more_newer (meta data))) w in
             let w := with_app (set_total (total (meta data))) w in
             Return (update_jump_to_newest_button w)
           end)
  end.

(** *** Running tasks *)

(** The page as the task left it: at its return, at its throw, or at the
    [await] it is suspended on. *)
Definition page_of (t : task) : world :=
  match t with
  | Return w | Throw _ w | Await _ w _ => w
  end.

(** The fetch of a suspended task settles with [res] while the page is
    [w]. *)
Definition resume_with (t : task) (res : fetch_result) (w : world) : task :=
  match t with
  | Await _ _ k => k res w
  | _ => t
  end.

(** The fetch settles and nothing else ran in between. *)
Definition resume (t : task) (res : fetch_result) : task :=
  resume_with t res (page_of t).

(** Feed the responses of the successive fetches of one task. *)
Definition run (t : task) (responses : list fetch_result) : task :=
  fold_left resume responses t.

(** The request a task is suspended on, if it is. *)
Definition awaiting (t : task) : option fetch_request :=
  match t with
  | Await request _ _ => Some request
  | _ => None
  end.

End Browser.

(** What attaching tapbacks leaves alone: everything but the tapback
    containers and the pending map. *)
Definition li_skeleton (item : li) : Z * option Z * bool :=
  (li_message_id item, li_rx_time item, li_read item).

Definition ul_skeleton (u : ul) : list (Z * option Z * bool) * scroll_value :=
  (map li_skeleton (ul_items u), ul_scroll_top u).

Definition tapback_frame (w w' : world) : Prop :=
  app w' = app w /\ content w' = content w /\
  local_storage w' = local_storage w /\
  page_templates w' = page_templates w /\
  mobile_layout w' = mobile_layout w /\
  window_scroll w' = window_scroll w /\
  forall r, option_map ul_skeleton (elements w' !! r)
            = option_map ul_skeleton (elements w !! r).

(** The primary entries of a page, as [append_messages_to_list] and
    [prepend_messages_to_list] select them. *)
Definition primary_entries (is_tapback : message -> bool) (page : list message)
    : list message :=
  List.filter (fun m => negb (is_tapback m)) page.

(** The tapback container of the first LI with the given id in the list
    on display: the reactions recorded for it and its badges. *)
Definition container_of (parent : Z) (w : world) : tapback_container :=
  match find_message_li (Some parent) w with
  | Some (_, _, item) => default (TapbackContainer [] []) (li_tapbacks item)
  | None => TapbackContainer [] []
  end.

Definition recorded_tapbacks (parent : Z) (w : world) : list message :=
  tc_tapbacks (container_of parent w).

Definition badges (parent : Z) (w : world) : list pill :=
  tc_children (container_of parent w).

(** The four boundary fields of the cursor. *)
Definition cursor_fields (s : app_state) : option Z * option Z * option Z * option Z :=
  (messages_oldest_rx_time s, messages_oldest_id s,
   messages_newest_rx_time s, messages_newest_id s).

End Messages.

Export Messages.

(** ** A reference browser for the examples

    The examples below need the two Unicode services as functions.  This
    instance splits a string into code points (a surrogate pair is one
    segment) and takes as pictographic the code points U+2600 to U+27BF and
    U+1F000 to U+1FBFF.  It agrees with a browser on the strings used here:
    one emoji of one code point, or plain ASCII text. *)

Module Reference.

Definition is_high_surrogate (c : N) : bool := ((55296 <=? c) && (c <=? 56319))%N.
Definition is_low_surrogate (c : N) : bool := ((56320 <=? c) && (c <=? 57343))%N.

Fixpoint segments_from (pending : option N) (s : jstring) : list jstring :=
  match s with
  | [] => match pending with
          | Some h => [[h]]
          | None => []
          end
  | c :: rest =>
    match pending with
    | Some h =>
      if is_low_surrogate c then [h; c] :: segments_from None rest
      else if is_high_surrogate c then [h] :: segments_from (Some c) rest
      else [h] :: [c] :: segments_from None rest
    | None =>
      if is_high_surrogate c then segments_from (Some c) rest
      else [c] :: segments_from None rest
    end
  end.

Definition grapheme_segments (s : jstring) : list jstring := segments_from None s.

Definition extended_pictographic (segment : jstring) : bool :=
  match segment with
  | [c] => ((9728 <=? c) && (c <=? 10175))%N
  | [h; l] => ((55356 <=? h) && (h <=? 55358))%N && is_low_surrogate l
  | _ => false
  end.

Definition is_tapback : message -> bool :=
  Tapback.is_tapback grapheme_segments extended_pictographic.

(** Sample texts, as code units. *)
Definition thumbs_up : jstring := [55357; 56397]%N.       (* U+1F44D *)
Definition heart : jstring := [10084]%N.                 (* U+2764 *)
Definition party : jstring := [55356; 57225]%N.          (* U+1F389 *)
Definition hello : jstring := [104; 101; 108; 108; 111]%N.

(** A plain message and a reaction to [parent]. *)
Definition plain (i t : Z) : message := Message i (1000 + i) (Some t) hello None [].
Definition reaction (i t parent : Z) (emoji : jstring) : message :=
  Message i (1000 + i) (Some t) emoji (Some parent) [].

Definition all_templates : templates := Templates true true true.

Definition initial_app : app_state :=
  AppState ViewChannel (Some 0) false false false None None None None false 0
    None false None false.

(** A page that shows nothing yet, with working storage. *)
Definition blank : world :=
  World initial_app ∅ ContentOther [] (Some ∅) all_templates false ScrollUntouched.

Definition options : view_options := ViewOptions false (Some 0) "General".

Definition view_task (w : world) : task :=
  render_messages_view grapheme_segments extended_pictographic options w.

(** A first visit of channel 0: the newest page holds three messages
    received at 100, 101 and 102, and older ones exist. *)
Definition fresh_page : api_response :=
  Response (Meta true false 3) [plain 1 100; plain 2 101; plain 3 102].

Definition loaded : world := page_of (run (view_task blank) [FetchOk fresh_page]).

(** Only the first item is above the bottom edge of the list. *)
Definition first_in_view : layout :=
  Layout 500 (fun i => match i with O => 0 | S _ => 600 end).



(** A later visit: the stored position is message 1003 received at 102.
    The context page ends there, the page after it holds two messages and
    more are waiting. *)
Definition context_page : api_response :=
  Response (Meta true true 9) [plain 1 100; plain 2 101; plain 3 102].
Definition newer_page : api_response :=
  Response (Meta true true 9) [plain 4 103; plain 5 104].

Definition resumed : world :=
  page_of (run (view_task loaded) [FetchOk context_page; FetchOk newer_page]).

(** The pages that follow: what the server holds after 104 and after 106. *)
Definition page_after_104 : api_response :=
  Response (Meta true true 9) [plain 6 105; plain 7 106].
Definition page_after_106 : api_response :=
  Response (Meta true false 9) [plain 8 107].

(** The poll starts on [resumed]; while its fetch is outstanding the user
    scrolls to the end twice, and each time [load_newer_messages] runs to
    completion; then the response of the poll arrives.  Every response is
    the page the server holds after the boundary of its request. *)
Definition poll : task :=
  update_messages_list grapheme_segments extended_pictographic false resumed.
Definition first_load_newer : task :=
  load_newer_messages grapheme_segments extended_pictographic (page_of poll).
Definition after_first_load : world :=
  page_of (resume first_load_newer (FetchOk page_after_104)).
Definition second_load_newer : task :=
  load_newer_messages grapheme_segments extended_pictographic after_first_load.
Definition after_second_load : world :=
  page_of (resume second_load_newer (FetchOk page_after_106)).
Definition after_poll : world :=
  page_of (resume_with poll (FetchOk page_after_104) after_second_load).

(** A page that lies inside the window of [resumed]. *)
Definition page_inside : api_response :=
  Response (Meta true true 9) [plain 2 101].

(** One message and six thumbs-up reactions to it. *)
Definition six_reactions : list message :=
  map (fun i => reaction (10 + i) (200 + i) 1001 thumbs_up) [1; 2; 3; 4; 5; 6].

Definition reacted : world :=
  page_of (run (view_task blank)
             [FetchOk (Response (Meta false false 7) (plain 1 100 :: six_reactions))]).

Definition sixth_reaction : message := reaction 16 206 1001 thumbs_up.

(** Eight reactions to one message: six thumbs up, a heart and a party
    popper. *)
Definition eight_reactions : list message :=
  six_reactions ++ [reaction 17 150 1001 heart; reaction 18 250 1001 party].

(** Sixteen reactions: five hearts, five party poppers, then six thumbs
    up. *)
Definition sixteen_reactions : list message :=
  map (fun i => reaction (20 + i) (100 + i) 1001 heart) [1; 2; 3; 4; 5]
  ++ map (fun i => reaction (30 + i) (110 + i) 1001 party) [1; 2; 3; 4; 5]
  ++ six_reactions.

(** The state after leaving channel 2 scrolled to 240 pixels. *)
Definition saved_app : app_state :=
  set_saved_scroll (Some 240) false (Some 2) false initial_app.

End Reference.

(** ** Further definitions for the properties of the code *)

Module Conversation.

(** Two requests name the same conversation: the direct messages, or the
    same channel. *)
Definition same_conversation (is_dm : bool) (channel_index : option Z)
    (is_dm' : bool) (channel_index' : option Z) : Prop :=
  (is_dm = true /\ is_dm' = true) \/
  (is_dm = false /\ is_dm' = false /\ channel_index = channel_index').

(** The test of [mark_read_up_to] on the data of an entry. *)
Definition read_up_to (pos : read_position) (m : message) : bool :=
  (to_number (rx_time m) <? rp_rx_time pos)
  || ((to_number (rx_time m) =? rp_rx_time pos) && (message_id m <=? rp_message_id pos)).

(** The number of leading items that a scan finds in view. *)
Fixpoint leading_in_view (lay : layout) (i : nat) (items : list li) : nat :=
  match items with
  | [] => 0
  | _ :: rest =>
    if item_top lay i <? container_bottom lay
    then S (leading_in_view lay (S i) rest)
    else 0
  end.

End Conversation.

Export Conversation.

Module Badges.

Definition is_overflow (p : pill) : bool :=
  match p with
  | OverflowPill _ => true
  | _ => false
  end.

(** A string of white space only. *)
Definition all_white_space (s : jstring) : Prop :=
  Forall (fun c => is_white_space c = true) s.

End Badges.

Export Badges.

Module WindowShape.

(** The skeleton of the LI that [create_message_item] makes for an entry,
    with the given read mark. *)
Definition entry_skeleton (read : bool) (m : message) : Z * option Z * bool :=
  (message_id m, rx_time m, read).

(** Ids, times and read marks of the window, in order. *)
Definition window_skeleton (w : world) : list (Z * option Z * bool) :=
  map li_skeleton (window w).

(** The scroll value of the list on display. *)
Definition window_scroll_top (w : world) : option scroll_value :=
  match get_messages_list w with
  | Some r => option_map ul_scroll_top (elements w !! r)
  | None => None
  end.

End WindowShape.

Export WindowShape.

(** * Properties *)

(** ** Saved scroll position *)

Section SavedScroll.

Lemma clear_saved_scroll_position_top s :
  saved_messages_scroll_top (clear_saved_scroll_position s) = None.
Proof. reflexivity. Qed.

Lemma consume_nothing_saved is_dm channel_index s :
  saved_messages_scroll_top s = None ->
  consume_saved_scroll_position is_dm channel_index s = (None, s).
Proof. unfold consume_saved_scroll_position. intros ->. reflexivity. Qed.

(** C10. While a position is saved, [consume_saved_scroll_position] returns
    it exactly when the saved context matches the request, clears the saved
    position in every case, and a call that follows at once returns
    [null]. *)
Theorem consume_saved_scroll_position_single_use :
  forall (is_dm : bool) (channel_index : option Z) (s : app_state) (top : Z),
    saved_messages_scroll_top s = Some top ->
    (forall r, (consume_saved_scroll_position is_dm channel_index s).1 = Some r ->
               saved_context_matches is_dm channel_index s /\ scroll_top r = top) /\
    (saved_context_matches is_dm channel_index s ->
     (consume_saved_scroll_position is_dm channel_index s).1
     = Some (SavedScroll top (saved_messages_is_mobile s))) /\
    (consume_saved_scroll_position is_dm channel_index s).2
    = clear_saved_scroll_position s /\
    (forall is_dm' channel_index',
       (consume_saved_scroll_position is_dm' channel_index'
          (consume_saved_scroll_position is_dm channel_index s).2).1 = None).
Proof.
  intros is_dm channel_index s top Hsaved.
  assert (Hclear : (consume_saved_scroll_position is_dm channel_index s).2
                   = clear_saved_scroll_position s).
  { unfold consume_saved_scroll_position. rewrite Hsaved.
    repeat case_match; reflexivity. }
  split; [| split; [| split]].
  - unfold consume_saved_scroll_position, saved_context_matches. rewrite Hsaved.
    intros r. repeat case_bool_decide; destruct is_dm; cbn; intros [= <-];
      repeat split; congruence.
  - unfold consume_saved_scroll_position, saved_context_matches. rewrite Hsaved.
    intros [Hdm Hch].
    rewrite (bool_decide_eq_true_2 _ Hdm). cbn [negb].
    destruct is_dm; [reflexivity |].
    rewrite (bool_decide_eq_true_2 _ (Hch eq_refl)). reflexivity.
  - exact Hclear.
  - intros is_dm' channel_index'. rewrite Hclear.
    rewrite consume_nothing_saved; reflexivity.
Qed.

Lemma consume_saved_scroll_position_single_use_witness :
  (consume_saved_scroll_position false (Some 2) Reference.saved_app).1
  = Some (SavedScroll 240 false) /\
  (consume_saved_scroll_position false (Some 3) Reference.saved_app).1 = None /\
  (consume_saved_scroll_position false (Some 3)
     (consume_saved_scroll_position false (Some 3) Reference.saved_app).2).1 = None.
Proof.
  pose proof (consume_saved_scroll_position_single_use false (Some 2)
                Reference.saved_app 240 eq_refl) as (_ & Hmatch & _ & _).
  pose proof (consume_saved_scroll_position_single_use false (Some 3)
                Reference.saved_app 240 eq_refl) as (_ & _ & _ & Hagain).
  split; [apply Hmatch; split; reflexivity |].
  split; [reflexivity | apply Hagain].
Defined.

End SavedScroll.

(** ** Read position *)

Section ReadPosition.

Lemma position_lt_irrefl a : ~ position_lt a a.
Proof. unfold position_lt. lia. Qed.

Lemma position_le_trans a b c : position_le a b -> position_le b c -> position_le a c.
Proof.
  unfold position_le, position_lt.
  intros [-> | Hab] [-> | Hbc]; auto. right. lia.
Qed.

Lemma position_le_lt_false a b : position_le a b -> position_lt b a -> False.
Proof. unfold position_le, position_lt. intros [-> | H] H'; lia. Qed.

(** The guard of the write is the strict order. *)
Lemma is_newer_than_spec cur msg_id rx_time :
  is_newer_than (Some cur) msg_id rx_time = true <->
  position_lt cur (ReadPosition msg_id rx_time).
Proof.
  unfold is_newer_than, position_lt. cbn.
  rewrite orb_true_iff, andb_true_iff, !Z.ltb_lt, Z.eqb_eq. intuition lia.
Qed.

Lemma get_last_read_set_last_read is_dm ch mid rx store w :
  local_storage w = Some store ->
  get_last_read is_dm ch (set_last_read is_dm ch mid (Some rx) w)
  = Some (ReadPosition mid rx).
Proof.
  intros Hs. unfold get_last_read, set_last_read. rewrite Hs. cbn.
  rewrite lookup_insert_eq. reflexivity.
Qed.

Lemma get_last_read_storage is_dm ch w w' :
  local_storage w' = local_storage w ->
  get_last_read is_dm ch w' = get_last_read is_dm ch w.
Proof. unfold get_last_read. intros ->. reflexivity. Qed.

(** What a scan does to the storage: one guarded write for the candidate. *)
Lemma update_read_position_storage lay w :
  app (update_read_position lay w) = app w /\
  local_storage (update_read_position lay w) =
  match read_candidate lay w with
  | Some item =>
    if truthy (li_message_id item) && truthy (to_number (li_rx_time item))
       && is_newer_than (stored_position w) (li_message_id item) (to_number (li_rx_time item))
    then local_storage
           (set_last_read (messages_is_dm (app w)) (current_channel_index (app w))
              (li_message_id item) (Some (to_number (li_rx_time item))) w)
    else local_storage w
  | None => local_storage w
  end.
Proof.
  unfold update_read_position, read_candidate, window, stored_position.
  destruct (get_messages_list w) as [r |]; [| split; reflexivity].
  destruct (elements w !! r) as [u |]; [| split; reflexivity].
  destruct (scan_visible lay 0 (ul_items u) None) as [items' [item |]];
    [| split; reflexivity].
  cbn [snd].
  destruct (truthy (li_message_id item) && truthy (to_number (li_rx_time item)));
    [| split; reflexivity].
  cbn [andb].
  change (get_last_read _ _ (update_items r (fun _ => items') w))
    with (get_last_read (messages_is_dm (app w)) (current_channel_index (app w)) w).
  destruct (is_newer_than _ _ _); [| split; reflexivity].
  unfold set_last_read. cbn.
  destruct (local_storage w); split; reflexivity.
Qed.

(** One scan either leaves the storage alone or replaces the stored position
    by the candidate, which is then strictly greater. *)
Lemma update_read_position_cases lay w cur :
  stored_position w = Some cur ->
  (local_storage (update_read_position lay w) = local_storage w /\
   stored_position (update_read_position lay w) = Some cur) \/
  (exists item, read_candidate lay w = Some item
                /\ position_lt cur (item_position item)
                /\ stored_position (update_read_position lay w)
                   = Some (item_position item)).
Proof.
  intros Hcur.
  destruct (update_read_position_storage lay w) as [Happ Hst].
  assert (Hkeep : local_storage (update_read_position lay w) = local_storage w ->
                  stored_position (update_read_position lay w) = Some cur).
  { intros H. unfold stored_position. rewrite Happ.
    rewrite (get_last_read_storage _ _ _ _ H). exact Hcur. }
  assert (Hstore : exists store, local_storage w = Some store).
  { unfold stored_position, get_last_read in Hcur.
    destruct (local_storage w); [eauto | discriminate]. }
  destruct Hstore as [store Hstore].
  destruct (read_candidate lay w) as [item |] eqn:Hcand; [| left; auto].
  destruct (truthy (li_message_id item) && truthy (to_number (li_rx_time item)));
    cbn [andb] in Hst; [| left; auto].
  rewrite Hcur in Hst.
  destruct (is_newer_than (Some cur) (li_message_id item) (to_number (li_rx_time item)))
    eqn:Hnew; [| left; auto].
  apply is_newer_than_spec in Hnew.
  right. exists item. split; [reflexivity |]. split; [exact Hnew |].
  unfold stored_position, item_position. rewrite Happ.
  rewrite <- (get_last_read_set_last_read (messages_is_dm (app w))
                (current_channel_index (app w)) (li_message_id item)
                (to_number (li_rx_time item)) store w Hstore).
  apply get_last_read_storage. exact Hst.
Qed.

(** Over any run of scans, whatever the layout of each, the stored position
    of the conversation only moves forward. *)
Lemma scans_never_decrease lays w cur :
  stored_position w = Some cur ->
  exists cur',
    stored_position (fold_left (fun w lay => update_read_position lay w) lays w) = Some cur'
    /\ position_le cur cur'.
Proof.
  revert w cur. induction lays as [| lay lays IH]; intros w cur Hcur; cbn [fold_left].
  - exists cur. split; [exact Hcur | left; reflexivity].
  - destruct (update_read_position_cases lay w cur Hcur)
      as [[_ Hsame] | (item & _ & Hlt & Hnew)].
    + apply IH. exact Hsame.
    + destruct (IH _ _ Hnew) as (cur' & Hcur' & Hle).
      exists cur'. split; [exact Hcur' |].
      eapply position_le_trans; [right; exact Hlt | exact Hle].
Qed.

(** C6. With a stored position, a scan overwrites it only by a candidate
    that is strictly greater in the order of [(rx_time, message_id)]; a
    candidate that is older or equal leaves the storage as it was; the
    stored position never decreases. *)
Theorem update_read_position_monotone :
  forall (lay : layout) (w : world) (cur : read_position),
    stored_position w = Some cur ->
    (exists cur', stored_position (update_read_position lay w) = Some cur'
                  /\ position_le cur cur') /\
    (local_storage (update_read_position lay w) <> local_storage w ->
     exists item, read_candidate lay w = Some item
                  /\ position_lt cur (item_position item)
                  /\ stored_position (update_read_position lay w)
                     = Some (item_position item)) /\
    (forall item, read_candidate lay w = Some item ->
                  position_le (item_position item) cur ->
                  local_storage (update_read_position lay w) = local_storage w).
Proof.
  intros lay w cur Hcur.
  destruct (update_read_position_cases lay w cur Hcur)
    as [[Hsame Hpos] | (item & Hcand & Hlt & Hnew)].
  - split; [exists cur; split; [exact Hpos | left; reflexivity] |].
    split; [intros Hchanged; contradiction | intros; exact Hsame].
  - split; [exists (item_position item); split; [exact Hnew | right; exact Hlt] |].
    split; [intros _; exists item; auto |].
    intros item' Hcand' Hle. rewrite Hcand in Hcand'. injection Hcand' as <-.
    exfalso. eapply position_le_lt_false; eauto.
Qed.

Lemma update_read_position_monotone_witness :
  stored_position Reference.loaded = Some (ReadPosition 1003 102) /\
  local_storage (update_read_position Reference.first_in_view Reference.loaded)
  = local_storage Reference.loaded.
Proof.
  assert (Hcur : stored_position Reference.loaded = Some (ReadPosition 1003 102))
    by (vm_compute; reflexivity).
  split; [exact Hcur |].
  pose proof (update_read_position_monotone Reference.first_in_view Reference.loaded
                (ReadPosition 1003 102) Hcur) as (_ & _ & Holder).
  apply (Holder (Li 1001 (Some 100) true None)).
  - vm_compute; reflexivity.
  - right. left. cbn. lia.
Defined.

End ReadPosition.

(** ** Pagination: empty pages *)

Section EmptyPage.

Variable grapheme_segments : jstring -> list jstring.
Variable extended_pictographic : jstring -> bool.

Local Abbreviation load_older := (load_older_messages grapheme_segments extended_pictographic).
Local Abbreviation load_newer := (load_newer_messages grapheme_segments extended_pictographic).


Lemma window_update_jump_to_newest_button w :
  window (update_jump_to_newest_button w) = window w.
Proof.
  unfold update_jump_to_newest_button, window, get_messages_list.
  destruct (content w) eqn:Hc; cbn; rewrite ?Hc; reflexivity.
Qed.

Lemma app_update_jump_to_newest_button w :
  app (update_jump_to_newest_button w) = app w.
Proof. unfold update_jump_to_newest_button. destruct (content w); reflexivity. Qed.


(** A call of [load_older_messages] that reaches its fetch resumes, on an
    empty page, to the page of that moment with two flags cleared. *)
Lemma load_older_empty_resume w req data w2 :
  awaiting (load_older w) = Some req ->
  rows data = [] ->
  resume_with (load_older w) (FetchOk data) w2
  = Return (with_app (fun s => set_is_loading false (set_has_more_older false s)) w2).
Proof.
  unfold load_older_messages. intros Hawait Hrows.
  destruct (messages_is_loading (app w) || negb (messages_has_more_older (app w)));
    [discriminate |].
  destruct (strict_eq (messages_oldest_rx_time (app w)) None); [discriminate |].
  destruct (get_messages_list w); [| discriminate].
  cbn [resume_with]. rewrite Hrows. reflexivity.
Qed.



End EmptyPage.

(** With nothing running in between, the whole call changes one flag. *)
Lemma load_older_empty_uninterrupted seg pict w req data :
  awaiting (load_older_messages seg pict w) = Some req ->
  rows data = [] ->
  resume (load_older_messages seg pict w) (FetchOk data)
  = Return (with_app (set_has_more_older false) w).
Proof.
  intros Hawait Hrows. unfold resume.
  rewrite (load_older_empty_resume seg pict w req data _ Hawait Hrows).
  revert Hawait. unfold load_older_messages.
  destruct (messages_is_loading (app w)) eqn:Hload; [discriminate |].
  destruct (negb (messages_has_more_older (app w))); [discriminate |]. cbn [orb].
  destruct (strict_eq (messages_oldest_rx_time (app w)) None); [discriminate |].
  destruct (get_messages_list w); [| discriminate].
  intros _. cbn [page_of].
  destruct w as [s ? ? ? ? ? ? ?]. destruct s. cbn in *. subst. reflexivity.
Qed.


(** ** The loading guard *)

Section LoadingGuard.

Variable grapheme_segments : jstring -> list jstring.
Variable extended_pictographic : jstring -> bool.

Local Abbreviation load_older := (load_older_messages grapheme_segments extended_pictographic).
Local Abbreviation load_newer := (load_newer_messages grapheme_segments extended_pictographic).
Local Abbreviation jump := (handle_jump_to_newest grapheme_segments extended_pictographic).
Local Abbreviation poll := (update_messages_list grapheme_segments extended_pictographic).

(** While the guard is set, each of the four operations returns at once and
    leaves the page as it is. *)
Lemma loading_guard_blocks w :
  messages_is_loading (app w) = true ->
  load_older w = Return w /\ load_newer w = Return w /\ jump w = Return w
  /\ forall is_dm, poll is_dm w = Return w.
Proof.
  intros Hload.
  unfold load_older_messages, load_newer_messages, handle_jump_to_newest,
    update_messages_list.
  rewrite Hload. cbn [orb].
  repeat split; intros; destruct (get_messages_list w); reflexivity.
Qed.

(** The three pagination requests set the guard before their fetch. *)
Lemma pagination_sets_guard w req :
  (awaiting (load_older w) = Some req ->
   messages_is_loading (app (page_of (load_older w))) = true) /\
  (awaiting (load_newer w) = Some req ->
   messages_is_loading (app (page_of (load_newer w))) = true) /\
  (awaiting (jump w) = Some req ->
   messages_is_loading (app (page_of (jump w))) = true).
Proof.
  unfold load_older_messages, load_newer_messages, handle_jump_to_newest.
  repeat split; repeat case_match; cbn; congruence.
Qed.

(** The poll does not: it suspends on the page as it found it. *)
Lemma poll_keeps_page is_dm w req :
  awaiting (poll is_dm w) = Some req -> page_of (poll is_dm w) = w.
Proof.
  unfold update_messages_list. repeat case_match; cbn; congruence.
Qed.

End LoadingGuard.

(** C8. The poll checks the loading guard but does not set it.  With the poll
    of [Reference.resumed] in flight the guard is still open: load-newer,
    load-older, jump-to-newest and a second poll each issue their own fetch
    instead of returning, and load-newer changes the page.  When two
    load-newer calls complete and the response of the poll arrives after
    them, its page is merged a second time. *)
Theorem poll_leaves_guard_open :
  awaiting Reference.poll = Some (Request false (Some 0) (Some 104) None false) /\
  messages_is_loading (app (page_of Reference.poll)) = false /\
  awaiting Reference.first_load_newer = Some (Request false (Some 0) (Some 104) None false) /\
  messages_is_loading (app (page_of Reference.first_load_newer)) = true /\
  awaiting (load_older_messages Reference.grapheme_segments Reference.extended_pictographic
              (page_of Reference.poll))
  = Some (Request false (Some 0) None (Some 100) false) /\
  awaiting (handle_jump_to_newest Reference.grapheme_segments
              Reference.extended_pictographic (page_of Reference.poll))
  = Some (Request false (Some 0) None None true) /\
  awaiting (update_messages_list Reference.grapheme_segments
              Reference.extended_pictographic false (page_of Reference.poll))
  = Some (Request false (Some 0) (Some 104) None false) /\
  window_ids Reference.after_second_load
  = [1001; 1002; 1003; 1004; 1005; 1006; 1007; 1008] /\
  window_ids Reference.after_poll
  = [1001; 1002; 1003; 1004; 1005; 1006; 1007; 1008; 1006; 1007].
Proof. vm_compute. repeat split. Qed.

(** ** Cursor bounds *)

Section CursorBounds.

Lemma less_than_spec a b : less_than a b = true <-> to_number a < to_number b.
Proof. unfold less_than. apply bool_decide_eq_true. Qed.

Lemma strict_eq_spec a b : strict_eq a b = true <-> a = b.
Proof. unfold strict_eq. apply bool_decide_eq_true. Qed.

(** [update_message_cursors] guards both writes: a bound that is set only
    moves outward, whatever the page. *)
Lemma update_message_cursors_monotone data s :
  (messages_oldest_rx_time s <> None ->
   key_le (oldest_key (update_message_cursors data s)) (oldest_key s)) /\
  (messages_newest_rx_time s <> None ->
   key_le (newest_key s) (newest_key (update_message_cursors data s))).
Proof.
  unfold update_message_cursors.
  destruct (rows data) as [| first rest]; [split; intros _; left; reflexivity |].
  set (last := List.last (first :: rest) first). clearbody last.
  split; intros Hset.
  - match goal with
    | |- context [if ?c then set_oldest_id _ _ else _] => destruct c eqn:Hc
    end.
    + assert (Hlt : key_lt (to_number (rx_time first), id first) (oldest_key s)).
      { cbn in Hc.
        apply orb_true_iff in Hc as [Hc | Hc];
          [apply orb_true_iff in Hc as [Hc | Hc] |].
        - apply strict_eq_spec in Hc. contradiction.
        - apply less_than_spec in Hc. left. exact Hc.
        - apply andb_true_iff in Hc as [He Hl].
          apply strict_eq_spec in He. apply less_than_spec in Hl.
          right. unfold oldest_key. rewrite He. split; [reflexivity | exact Hl]. }
      repeat case_match; right; exact Hlt.
    + repeat case_match; left; reflexivity.
  - match goal with
    | |- context [if ?c then set_newest_id _ _ else _] => destruct c eqn:Hc
    end.
    + right. revert Hc. repeat case_match; cbn; intros Hc.
      all: apply orb_true_iff in Hc as [Hc | Hc];
        [apply orb_true_iff in Hc as [Hc | Hc] |].
      all: try (apply strict_eq_spec in Hc; contradiction).
      all: try (apply less_than_spec in Hc; left; exact Hc).
      all: apply andb_true_iff in Hc as [He Hl];
        apply strict_eq_spec in He; apply less_than_spec in Hl;
        right; unfold newest_key; cbn; rewrite He; split; [reflexivity | exact Hl].
    + repeat case_match; left; reflexivity.
Qed.

End CursorBounds.

(** C5. The guard of [update_message_cursors] is missing where the pagination
    writes the cursor.  On [Reference.resumed] the oldest key is [(100, 1)]; a
    load-older call whose fetch returns a page that starts inside the window
    moves it forward to [(101, 2)].  And with contract-abiding pages only:
    a poll in flight while two load-newer calls advance the newest key to
    [(107, 8)] writes it back to [(106, 7)] when its response arrives. *)
Theorem pagination_cursor_regresses :
  oldest_key (app Reference.resumed) = (100, 1) /\
  awaiting (load_older_messages Reference.grapheme_segments Reference.extended_pictographic
              Reference.resumed)
  = Some (Request false (Some 0) None (Some 100) false) /\
  oldest_key (app (page_of (resume (load_older_messages Reference.grapheme_segments
                                      Reference.extended_pictographic Reference.resumed)
                                   (FetchOk Reference.page_inside))))
  = (101, 2) /\
  newest_key (app Reference.resumed) = (104, 5) /\
  newest_key (app Reference.after_first_load) = (106, 7) /\
  newest_key (app Reference.after_second_load) = (107, 8) /\
  newest_key (app Reference.after_poll) = (106, 7).
Proof. vm_compute. repeat split. Qed.

(** ** Merging a page into the window *)

Section Merge.

Variable grapheme_segments : jstring -> list jstring.
Variable extended_pictographic : jstring -> bool.

Local Abbreviation is_tapback := (Tapback.is_tapback grapheme_segments extended_pictographic).
Local Abbreviation append_messages :=
  (append_messages_to_list grapheme_segments extended_pictographic).
Local Abbreviation prepend_messages :=
  (prepend_messages_to_list grapheme_segments extended_pictographic).

Lemma tapback_frame_refl w : tapback_frame w w.
Proof. unfold tapback_frame. auto 10. Qed.

Lemma tapback_frame_trans w1 w2 w3 :
  tapback_frame w1 w2 -> tapback_frame w2 w3 -> tapback_frame w1 w3.
Proof.
  unfold tapback_frame.
  intros (? & ? & ? & ? & ? & ? & H12) (? & ? & ? & ? & ? & ? & H23).
  repeat split; try congruence; intros r; rewrite H23; apply H12.
Qed.

Lemma tapback_frame_set_pending p w : tapback_frame w (set_pending_tapbacks p w).
Proof. unfold tapback_frame. cbn. auto 10. Qed.

Lemma tapback_frame_window_ids w w' :
  tapback_frame w w' -> window_ids w' = window_ids w.
Proof.
  intros (_ & Hc & _ & _ & _ & _ & Hel).
  unfold window_ids, window, get_messages_list. rewrite Hc.
  destruct (content w); try reflexivity.
  specialize (Hel messages_list).
  destruct (elements w' !! messages_list) as [u' |],
           (elements w !! messages_list) as [u |]; cbn in Hel; try discriminate;
    [| reflexivity].
  injection Hel as Hmap _.
  apply (f_equal (map (fun x => x.1.1))) in Hmap.
  rewrite !map_map in Hmap. exact Hmap.
Qed.

Lemma find_message_li_Some parent_id w r i item :
  find_message_li parent_id w = Some (r, i, item) ->
  get_messages_list w = Some r /\
  exists u, elements w !! r = Some u /\ ul_items u !! i = Some item.
Proof.
  unfold find_message_li.
  destruct (get_messages_list w) as [r' |]; [| discriminate].
  destruct (elements w !! r') as [u |] eqn:Hu; [| discriminate].
  destruct (list_find _ (ul_items u)) as [[i' item'] |] eqn:Hfind; [| discriminate].
  intros [= <- <- <-]. split; [reflexivity |].
  exists u. split; [exact Hu |].
  apply list_find_Some in Hfind. tauto.
Qed.

Lemma map_skeleton_insert (items : list li) i x x' :
  items !! i = Some x -> li_skeleton x' = li_skeleton x ->
  map li_skeleton (<[i := x']> items) = map li_skeleton items.
Proof.
  intros Hi Hsk. revert i Hi.
  induction items as [| y ys IH]; intros [| i] Hi; cbn in *; try discriminate.
  - injection Hi as ->. rewrite Hsk. reflexivity.
  - f_equal. apply IH. exact Hi.
Qed.

Lemma tapback_frame_attach tapback w :
  tapback_frame w (attach_tapback_to_parent tapback w).2.
Proof.
  unfold attach_tapback_to_parent.
  destruct (find_message_li (reply_to tapback) w) as [[[r i] parent_li] |] eqn:Hfind;
    [| apply tapback_frame_refl].
  case_bool_decide; [apply tapback_frame_refl |].
  apply find_message_li_Some in Hfind as (_ & u & Hu & Hi).
  unfold tapback_frame. cbn. repeat split.
  intros r'. destruct (decide (r = r')) as [<- | Hne].
  - rewrite lookup_alter_eq, Hu. cbn. unfold ul_skeleton. cbn. f_equal. f_equal.
    eapply map_skeleton_insert; [exact Hi | reflexivity].
  - rewrite lookup_alter_ne by exact Hne. reflexivity.
Qed.

Lemma tapback_frame_attach_all tapbacks w :
  tapback_frame w (attach_all tapbacks w).
Proof.
  unfold attach_all. revert w.
  induction tapbacks as [| t ts IH]; intros w; [apply tapback_frame_refl |].
  cbn [fold_left].
  eapply tapback_frame_trans; [apply tapback_frame_attach | apply IH].
Qed.

Lemma tapback_frame_attach_or_store tapbacks w :
  tapback_frame w (attach_or_store tapbacks w).
Proof.
  unfold attach_or_store. revert w.
  induction tapbacks as [| t ts IH]; intros w; [apply tapback_frame_refl |].
  cbn [fold_left].
  eapply tapback_frame_trans; [| apply IH].
  pose proof (tapback_frame_attach t w) as Hatt.
  destruct (attach_tapback_to_parent t w) as [[|] w']; cbn [snd] in Hatt;
    [exact Hatt |].
  eapply tapback_frame_trans; [exact Hatt | apply tapback_frame_set_pending].
Qed.

Lemma tapback_frame_flush_loop pending w resolved :
  tapback_frame w
    (fold_left
       (fun '(w, resolved) '(parent_id, tapbacks) =>
          match find_message_li parent_id w with
          | Some _ => (attach_all tapbacks w, resolved ++ [parent_id])
          | None => (w, resolved)
          end)
       pending (w, resolved)).1.
Proof.
  revert w resolved.
  induction pending as [| [parent_id tapbacks] rest IH]; intros w resolved;
    [apply tapback_frame_refl |].
  cbn [fold_left].
  destruct (find_message_li parent_id w); [| apply IH].
  eapply tapback_frame_trans; [apply tapback_frame_attach_all | apply IH].
Qed.

Lemma tapback_frame_flush w : tapback_frame w (flush_pending_tapbacks w).
Proof.
  unfold flush_pending_tapbacks.
  destruct (pending_tapbacks w) as [| entry rest] eqn:Hp; [apply tapback_frame_refl |].
  pose proof (tapback_frame_flush_loop (entry :: rest) w []) as Hloop.
  destruct (fold_left _ (entry :: rest) (w, [])) as [w' resolved]. cbn [fst] in Hloop.
  eapply tapback_frame_trans; [exact Hloop | apply tapback_frame_set_pending].
Qed.

(** After the items are in place, the rest of a merge only touches tapback
    containers and the pending map. *)
Lemma append_messages_frame r page w :
  tapback_frame
    (update_items r (fun items =>
       items ++ omap (fun m => create_message_item m w) (primary_entries is_tapback page)) w)
    (append_messages r page w).
Proof.
  unfold append_messages_to_list, primary_entries.
  eapply tapback_frame_trans;
    [apply tapback_frame_attach_or_store | apply tapback_frame_flush].
Qed.

Lemma prepend_messages_window_ids r page w :
  window_ids (prepend_messages r page w)
  = window_ids
      (update_items r (fun items =>
         map mark_message_read
           (omap (fun m => create_message_item m w) (primary_entries is_tapback page))
         ++ items) w).
Proof.
  unfold prepend_messages_to_list, primary_entries.
  match goal with
  | |- context [flush_pending_tapbacks (attach_or_store ?ts ?w0)] =>
    pose proof (tapback_frame_trans _ _ _
                  (tapback_frame_attach_or_store ts w0)
                  (tapback_frame_flush (attach_or_store ts w0))) as Hframe
  end.
  apply tapback_frame_window_ids in Hframe. rewrite <- Hframe.
  match goal with
  | |- context [mobile_layout ?w1] => destruct (mobile_layout w1)
  end.
  - reflexivity.
  - unfold window_ids, window, get_messages_list. cbn.
    match goal with |- context [content ?w1] => destruct (content w1) end;
      try reflexivity.
    destruct (decide (r = messages_list)) as [<- | Hne].
    + rewrite lookup_alter_eq.
      match goal with |- context [elements ?w1 !! r] => destruct (elements w1 !! r) end;
        reflexivity.
    + rewrite lookup_alter_ne by exact Hne. reflexivity.
Qed.

Lemma created_items_ids page w :
  template_message_item (page_templates w) = true ->
  map li_message_id (omap (fun m => create_message_item m w) page)
  = map message_id page.
Proof.
  intros Htpl. unfold create_message_item. rewrite Htpl.
  induction page as [| m ms IH]; [reflexivity |]. cbn. f_equal. exact IH.
Qed.

Lemma window_ids_update_items r u f w :
  get_messages_list w = Some r ->
  elements w !! r = Some u ->
  window_ids (update_items r f w) = map li_message_id (f (ul_items u)).
Proof.
  intros Hr Hu. unfold window_ids, window.
  change (get_messages_list (update_items r f w)) with (get_messages_list w).
  rewrite Hr. cbn. rewrite lookup_alter_eq, Hu. reflexivity.
Qed.

Lemma window_ids_live r u w :
  get_messages_list w = Some r ->
  elements w !! r = Some u ->
  window_ids w = map li_message_id (ul_items u).
Proof. intros Hr Hu. unfold window_ids, window. rewrite Hr, Hu. reflexivity. Qed.

Lemma map_id_mark_read items :
  map li_message_id (map mark_message_read items) = map li_message_id items.
Proof. rewrite map_map. reflexivity. Qed.

(** C1, as the code has it.  A merge inserts every primary entry of the page
    at its edge of the list on display and never looks the [message_id] up:
    an append puts them after the window, a prepend before it.  The window
    is free of repeated ids after the merge when it was before, the primary
    entries of the page carry distinct ids, and none of them is in the
    window. *)
Theorem merge_inserts_every_primary_entry :
  forall (w : world) (r : nat) (u : ul) (page : list message),
    get_messages_list w = Some r ->
    elements w !! r = Some u ->
    template_message_item (page_templates w) = true ->
    window_ids (append_messages r page w)
    = window_ids w ++ map message_id (primary_entries is_tapback page) /\
    window_ids (prepend_messages r page w)
    = map message_id (primary_entries is_tapback page) ++ window_ids w /\
    (NoDup (window_ids w) ->
     NoDup (map message_id (primary_entries is_tapback page)) ->
     (forall x, In x (window_ids w) ->
                ~ In x (map message_id (primary_entries is_tapback page))) ->
     NoDup (window_ids (append_messages r page w)) /\
     NoDup (window_ids (prepend_messages r page w))).
Proof.
  intros w r u page Hr Hu Htpl.
  assert (Happ : window_ids (append_messages r page w)
                 = window_ids w ++ map message_id (primary_entries is_tapback page)).
  { rewrite (tapback_frame_window_ids _ _ (append_messages_frame r page w)).
    rewrite (window_ids_update_items r u _ w Hr Hu), map_app.
    rewrite (created_items_ids _ w Htpl), (window_ids_live r u w Hr Hu). reflexivity. }
  assert (Hpre : window_ids (prepend_messages r page w)
                 = map message_id (primary_entries is_tapback page) ++ window_ids w).
  { rewrite prepend_messages_window_ids.
    rewrite (window_ids_update_items r u _ w Hr Hu), map_app, map_id_mark_read.
    rewrite (created_items_ids _ w Htpl), (window_ids_live r u w Hr Hu). reflexivity. }
  split; [exact Happ |]. split; [exact Hpre |].
  intros Hwin Hpage Hfresh. rewrite Happ, Hpre. split.
  - apply NoDup_app. repeat split; try assumption.
    intros x Hx Hx'. apply list_elem_of_In in Hx, Hx'. exact (Hfresh x Hx Hx').
  - apply NoDup_app. repeat split; try assumption.
    intros x Hx Hx'. apply list_elem_of_In in Hx, Hx'. exact (Hfresh x Hx' Hx).
Qed.

End Merge.

(** C1 does not hold as stated: a primary entry whose [message_id] is in the
    window is inserted again.  The window of [Reference.loaded] holds 1003;
    merging a page that brings 1003 leaves it there twice. *)
Lemma merge_reinserts_present_id :
  In 1003 (window_ids Reference.loaded) /\
  window_ids (append_messages_to_list Reference.grapheme_segments
                Reference.extended_pictographic 0%nat [Reference.plain 3 102]
                Reference.loaded)
  = [1001; 1002; 1003; 1003] /\
  window_ids (prepend_messages_to_list Reference.grapheme_segments
                Reference.extended_pictographic 0%nat [Reference.plain 3 102]
                Reference.loaded)
  = [1003; 1001; 1002; 1003] /\
  ~ NoDup (window_ids (append_messages_to_list Reference.grapheme_segments
                         Reference.extended_pictographic 0%nat [Reference.plain 3 102]
                         Reference.loaded)).
Proof.
  split; [vm_compute; auto |].
  split; [vm_compute; reflexivity |].
  split; [vm_compute; reflexivity |].
  apply (proj1 (bool_decide_eq_false _)). vm_compute. reflexivity.
Qed.

Lemma merge_inserts_every_primary_entry_witness :
  window_ids (append_messages_to_list Reference.grapheme_segments
                Reference.extended_pictographic 0%nat (rows Reference.newer_page)
                Reference.loaded)
  = [1001; 1002; 1003; 1004; 1005] /\
  NoDup (window_ids (prepend_messages_to_list Reference.grapheme_segments
                       Reference.extended_pictographic 0%nat (rows Reference.newer_page)
                       Reference.loaded)).
Proof.
  assert (Hu : elements Reference.loaded !! 0%nat
               = Some (Ul (window Reference.loaded) ScrollHeight))
    by (vm_compute; reflexivity).
  destruct (merge_inserts_every_primary_entry Reference.grapheme_segments
              Reference.extended_pictographic Reference.loaded 0%nat _
              (rows Reference.newer_page) eq_refl Hu eq_refl)
    as (Happend & _ & Hnodup).
  split; [rewrite Happend; vm_compute; reflexivity |].
  apply Hnodup.
  - apply (bool_decide_unpack _). vm_compute. exact I.
  - apply (bool_decide_unpack _). vm_compute. exact I.
  - intros x Hx Hx'. vm_compute in Hx, Hx'. intuition congruence.
Defined.

(** ** Attaching a reaction twice *)

(** A reaction that is on display as a clickable badge is recognised, and
    attaching it again leaves the page as it is. *)
Lemma attach_displayed_reaction_again tapback w r i parent_li container :
  find_message_li (reply_to tapback) w = Some (r, i, parent_li) ->
  li_tapbacks parent_li = Some container ->
  In (message_id tapback) (existing_tapback_ids (tc_children container)) ->
  attach_tapback_to_parent tapback w = (true, w).
Proof.
  intros Hfind Hcontainer Hin. unfold attach_tapback_to_parent.
  rewrite Hfind, Hcontainer. cbn [default].
  apply list_elem_of_In in Hin. rewrite (bool_decide_eq_true_2 _ Hin). reflexivity.
Qed.

(** A collapsed badge carries no id, so the reactions under it are not. *)
Lemma grouped_badge_hides_ids emoji count :
  existing_tapback_ids [create_grouped_tapback emoji count] = [].
Proof. reflexivity. Qed.

(** C4. Attaching is not idempotent under a collapsed badge.  The parent 1001
    of [Reference.reacted] has six thumbs-up reactions recorded, shown as one
    "x6" badge.  Attaching the sixth of them a second time records it again
    and re-renders the badge as "x7". *)
Theorem attach_again_under_collapsed_badge :
  In Reference.sixth_reaction (recorded_tapbacks 1001 Reference.reacted) /\
  length (recorded_tapbacks 1001 Reference.reacted) = 6%nat /\
  badges 1001 Reference.reacted = [GroupedPill Reference.thumbs_up 6] /\
  (attach_tapback_to_parent Reference.sixth_reaction Reference.reacted).1 = true /\
  recorded_tapbacks 1001 (attach_tapback_to_parent Reference.sixth_reaction Reference.reacted).2
  = recorded_tapbacks 1001 Reference.reacted ++ [Reference.sixth_reaction] /\
  badges 1001 (attach_tapback_to_parent Reference.sixth_reaction Reference.reacted).2
  = [GroupedPill Reference.thumbs_up 7].
Proof.
  split; [vm_compute; tauto |].
  repeat split; vm_compute; reflexivity.
Qed.

(** ** Cursor writes of the pagination *)

Section PaginationCursor.

Variable grapheme_segments : jstring -> list jstring.
Variable extended_pictographic : jstring -> bool.

Local Abbreviation load_older := (load_older_messages grapheme_segments extended_pictographic).
Local Abbreviation load_newer := (load_newer_messages grapheme_segments extended_pictographic).

Lemma app_append_messages r page w :
  app (append_messages_to_list grapheme_segments extended_pictographic r page w) = app w.
Proof.
  destruct (append_messages_frame grapheme_segments extended_pictographic r page w)
    as (Happ & _). rewrite Happ. reflexivity.
Qed.

Lemma app_prepend_messages r page w :
  app (prepend_messages_to_list grapheme_segments extended_pictographic r page w) = app w.
Proof.
  unfold prepend_messages_to_list.
  match goal with
  | |- context [flush_pending_tapbacks (attach_or_store ?ts ?w0)] =>
    pose proof (tapback_frame_trans _ _ _
                  (tapback_frame_attach_or_store ts w0)
                  (tapback_frame_flush (attach_or_store ts w0))) as (Happ & _)
  end.
  match goal with
  | |- context [mobile_layout ?w1] => destruct (mobile_layout w1)
  end; cbn [app set_window_scroll with_elements]; rewrite Happ; reflexivity.
Qed.

(** [load_older_messages] assigns the oldest bound from the first row of the
    page, whatever it is.  The bound moves outward when that row lies before
    it, which is what a strict [before_rx_time] query returns. *)
Lemma load_older_strict_page w req data first rest w2 :
  awaiting (load_older w) = Some req ->
  rows data = first :: rest ->
  oldest_key (app (page_of (resume_with (load_older w) (FetchOk data) w2)))
  = (to_number (rx_time first), id first) /\
  newest_key (app (page_of (resume_with (load_older w) (FetchOk data) w2)))
  = newest_key (app w2) /\
  (to_number (rx_time first) < to_number (messages_oldest_rx_time (app w2)) ->
   key_lt (oldest_key (app (page_of (resume_with (load_older w) (FetchOk data) w2))))
          (oldest_key (app w2))).
Proof.
  unfold load_older_messages. intros Hawait Hrows.
  destruct (messages_is_loading (app w) || negb (messages_has_more_older (app w)));
    [discriminate |].
  destruct (strict_eq (messages_oldest_rx_time (app w)) None); [discriminate |].
  destruct (get_messages_list w) as [r |]; [| discriminate].
  cbn [resume_with]. rewrite Hrows. cbn [page_of app with_app].
  rewrite app_prepend_messages. cbn.
  repeat split. intros Hlt. left. exact Hlt.
Qed.

(** The same for [load_newer_messages] and the last row of its page. *)
Lemma load_newer_strict_page w req data first rest w2 :
  awaiting (load_newer w) = Some req ->
  rows data = first :: rest ->
  newest_key (app (page_of (resume_with (load_newer w) (FetchOk data) w2)))
  = (to_number (rx_time (List.last (rows data) first)), id (List.last (rows data) first)) /\
  oldest_key (app (page_of (resume_with (load_newer w) (FetchOk data) w2)))
  = oldest_key (app w2) /\
  (to_number (messages_newest_rx_time (app w2))
   < to_number (rx_time (List.last (rows data) first)) ->
   key_lt (newest_key (app w2))
          (newest_key (app (page_of (resume_with (load_newer w) (FetchOk data) w2))))).
Proof.
  unfold load_newer_messages. intros Hawait Hrows.
  destruct (messages_is_loading (app w) || negb (messages_has_more_newer (app w)));
    [discriminate |].
  destruct (strict_eq (messages_newest_rx_time (app w)) None); [discriminate |].
  destruct (get_messages_list w) as [r |]; [| discriminate].
  cbn [resume_with]. rewrite Hrows. rewrite <- Hrows. cbn [page_of app with_app].
  rewrite app_update_jump_to_newest_button, app_append_messages. cbn.
  repeat split. intros Hlt. left. exact Hlt.
Qed.

End PaginationCursor.

(** ** Rendering the reactions of one parent *)

Section Render.

Local Abbreviation emoji_of := (fun t : message => trim (text t)).

(** *** The sort is a permutation *)

Lemma sort_insert_perm m l : Permutation (sort_insert m l) (m :: l).
Proof.
  induction l as [| x l IH]; cbn; [reflexivity |].
  destruct (sort_key m <? sort_key x); [reflexivity |].
  rewrite IH. apply perm_swap.
Qed.

Lemma sort_fold_perm l acc :
  Permutation (fold_left (fun sorted m => sort_insert m sorted) l acc) (acc ++ l).
Proof.
  revert acc. induction l as [| x l IH]; intros acc; cbn.
  - rewrite app_nil_r. reflexivity.
  - rewrite IH, sort_insert_perm. cbn. apply Permutation_middle.
Qed.

Lemma sort_by_rx_time_perm l : Permutation (sort_by_rx_time l) l.
Proof. apply (sort_fold_perm l []). Qed.

Lemma filter_perm {A} (f : A -> bool) l l' :
  Permutation l l' -> Permutation (List.filter f l) (List.filter f l').
Proof.
  induction 1 as [| x l l' _ IH | x y l | l l' l'' _ IH1 _ IH2]; cbn.
  - reflexivity.
  - destruct (f x); [constructor |]; exact IH.
  - destruct (f x), (f y); try reflexivity. apply perm_swap.
  - etransitivity; eassumption.
Qed.

Lemma emoji_count_perm e l l' :
  Permutation l l' -> emoji_count e l = emoji_count e l'.
Proof.
  intros H. unfold emoji_count, with_emoji.
  apply Permutation_length, filter_perm, H.
Qed.

(** *** The groups *)

Lemma map_push_keys (k : jstring) (t : message) groups k' :
  In k' (map fst (map_push k t groups)) <-> k' = k \/ In k' (map fst groups).
Proof.
  induction groups as [| [k0 g] rest IH]; cbn.
  - intuition.
  - case_bool_decide; cbn; [subst; intuition | rewrite IH; intuition].
Qed.

Lemma map_push_NoDup (k : jstring) (t : message) groups :
  NoDup (map fst groups) -> NoDup (map fst (map_push k t groups)).
Proof.
  induction groups as [| [k0 g] rest IH]; cbn; intros Hnd.
  - repeat constructor. intros H. inversion H.
  - apply NoDup_cons in Hnd as [Hnotin Hnd].
    case_bool_decide; cbn; apply NoDup_cons; split; auto.
    rewrite list_elem_of_In, map_push_keys. rewrite list_elem_of_In in Hnotin.
    intros [-> | H']; auto.
Qed.

Lemma map_push_group_of (k : jstring) (t : message) groups k' :
  group_of k' (map_push k t groups)
  = if bool_decide (k = k') then group_of k' groups ++ [t] else group_of k' groups.
Proof.
  induction groups as [| [k0 g] rest IH]; cbn.
  - repeat case_bool_decide; congruence.
  - destruct (decide (k0 = k)) as [-> | Hne].
    + rewrite (bool_decide_eq_true_2 _ eq_refl). cbn.
      repeat case_bool_decide; congruence.
    + rewrite (bool_decide_eq_false_2 _ Hne). cbn. rewrite IH.
      repeat case_bool_decide; congruence.
Qed.

Lemma map_push_total_size (k : jstring) (t : message) groups :
  total_size (map_push k t groups) = S (total_size groups).
Proof.
  induction groups as [| [k0 g] rest IH]; cbn; [reflexivity |].
  case_bool_decide; unfold total_size, list_sum in *; cbn.
  - rewrite length_app. cbn. lia.
  - rewrite IH. lia.
Qed.

Lemma group_fold_spec l groups :
  let groups' := fold_left (fun groups t => map_push (emoji_of t) t groups) l groups in
  (NoDup (map fst groups) -> NoDup (map fst groups')) /\
  (forall k, In k (map fst groups') <->
             In k (map fst groups) \/ In k (map emoji_of l)) /\
  (forall k, group_of k groups' = group_of k groups ++ with_emoji k l) /\
  total_size groups' = (total_size groups + length l)%nat.
Proof.
  revert groups. induction l as [| t l IH]; intros groups.
  - cbn. repeat split; auto; try tauto.
    + intros k. rewrite app_nil_r. reflexivity.
  - cbn [fold_left map]. destruct (IH (map_push (trim (text t)) t groups)) as (Hnd & Hkeys & Hgrp & Hsize).
    split; [| split; [| split]].
    + intros H. apply Hnd, map_push_NoDup, H.
    + intros k. rewrite Hkeys, map_push_keys. cbn [In]. intuition congruence.
    + intros k. rewrite Hgrp, map_push_group_of. unfold with_emoji. cbn.
      case_bool_decide; [rewrite <- app_assoc |]; reflexivity.
    + rewrite Hsize, map_push_total_size. cbn [length]. lia.
Qed.

Lemma group_of_In k g groups :
  NoDup (map fst groups) -> In (k, g) groups -> group_of k groups = g.
Proof.
  induction groups as [| [k0 g0] rest IH]; cbn; intros Hnd Hin; [contradiction |].
  apply NoDup_cons in Hnd as [Hnotin Hnd].
  destruct Hin as [[= -> ->] | Hin].
  - rewrite (bool_decide_eq_true_2 _ eq_refl). reflexivity.
  - case_bool_decide as Hk; [| auto].
    subst. exfalso. apply Hnotin, list_elem_of_In.
    apply (in_map fst) in Hin. exact Hin.
Qed.

(** The groups of a list: one per emoji that occurs, each holding the
    reactions with that emoji. *)
Lemma group_by_emoji_spec l :
  NoDup (map fst (group_by_emoji l)) /\
  (forall k, In k (map fst (group_by_emoji l)) <-> In k (map emoji_of l)) /\
  group_by_emoji l
  = map (fun k => (k, with_emoji k l)) (map fst (group_by_emoji l)) /\
  total_size (group_by_emoji l) = length l.
Proof.
  unfold group_by_emoji.
  destruct (group_fold_spec l []) as (Hnd & Hkeys & Hgrp & Hsize).
  cbn in *. specialize (Hnd (NoDup_nil_2)).
  split; [exact Hnd |]. split; [intros k; rewrite Hkeys; tauto |].
  split; [| exact Hsize].
  set (G := fold_left _ l []) in *.
  assert (Hall : forall kg, In kg G -> kg = (kg.1, with_emoji kg.1 l)).
  { intros [k g] Hin. cbn. rewrite <- Hgrp. f_equal. symmetry.
    apply group_of_In; assumption. }
  clear -Hall. induction G as [| kg G IH]; cbn; [reflexivity |].
  rewrite <- (Hall kg (or_introl eq_refl)). f_equal.
  apply IH. intros kg' H. apply Hall. right. exact H.
Qed.

(** *** Counting the badges *)

Lemma referenced_total_app a b :
  referenced_total (a ++ b) = (referenced_total a + referenced_total b)%nat.
Proof. unfold referenced_total. rewrite map_app, list_sum_app. reflexivity. Qed.

Lemma group_pills_referenced k g :
  referenced_total (group_pills (k, g)) = length g.
Proof.
  unfold group_pills, referenced_total, list_sum.
  case_bool_decide as Hsize; cbn; [lia | clear Hsize].
  induction g as [| t g IH]; cbn; [reflexivity | rewrite IH; reflexivity].
Qed.

Lemma flat_map_group_pills_referenced groups :
  referenced_total (flat_map group_pills groups) = total_size groups.
Proof.
  unfold total_size. induction groups as [| [k g] rest IH]; [reflexivity |].
  cbn [flat_map map list_sum].
  rewrite referenced_total_app, group_pills_referenced, IH. reflexivity.
Qed.

(** Every reaction is referenced by exactly one badge. *)
Lemma build_pills_referenced tapbacks :
  referenced_total (build_pills tapbacks) = length tapbacks.
Proof.
  unfold build_pills. rewrite flat_map_group_pills_referenced.
  destruct (group_by_emoji_spec (sort_by_rx_time tapbacks)) as (_ & _ & _ & ->).
  apply Permutation_length, sort_by_rx_time_perm.
Qed.

Lemma build_pills_badge_ok tapbacks : Forall badge_ok (build_pills tapbacks).
Proof.
  unfold build_pills. generalize (group_by_emoji (sort_by_rx_time tapbacks)).
  intros groups. induction groups as [| [k g] rest IH]; cbn [flat_map]; [constructor |].
  apply Forall_app. split; [| exact IH].
  unfold group_pills. case_bool_decide.
  - repeat constructor. assumption.
  - apply Forall_forall. intros p Hp. apply list_elem_of_In, in_map_iff in Hp
      as (t & <- & _). reflexivity.
Qed.

Lemma omitted_count (pills : list pill) :
  Forall badge_ok pills ->
  (length pills <= referenced_total pills)%nat /\
  (length pills = referenced_total pills <-> forallb (fun p => negb (is_grouped p)) pills = true).
Proof.
  unfold referenced_total, list_sum.
  induction 1 as [| p pills Hp _ IH]; cbn; [split; [lia | tauto] |].
  destruct IH as [Hle Hiff]. unfold badge_ok in Hp.
  destruct (is_grouped p); cbn.
  - split; [lia |]. split; [lia | discriminate].
  - rewrite Hp. split; [lia |]. rewrite <- Hiff. lia.
Qed.

(** *** The overflow indicator *)

Lemma render_tapbacks_overflow tapbacks :
  (max_pills < length (build_pills tapbacks))%nat ->
  render_tapbacks tapbacks
  = take max_pills (build_pills tapbacks)
    ++ [OverflowPill (Z.of_nat (length (build_pills tapbacks)) - Z.of_nat max_pills)].
Proof.
  intros Hlen. unfold render_tapbacks.
  destruct tapbacks as [| t ts]; [cbn in Hlen; lia |].
  set (pills := build_pills (t :: ts)) in *.
  assert (Hpos : (0 <? Z.of_nat (length pills) - Z.of_nat max_pills) = true)
    by (apply Z.ltb_lt; lia).
  rewrite Hpos. reflexivity.
Qed.

Lemma render_tapbacks_no_overflow tapbacks :
  (length (build_pills tapbacks) <= max_pills)%nat ->
  render_tapbacks tapbacks = build_pills tapbacks.
Proof.
  intros Hlen. unfold render_tapbacks.
  destruct tapbacks as [| t ts]; [reflexivity |].
  set (pills := build_pills (t :: ts)) in *.
  assert (Hneg : (0 <? Z.of_nat (length pills) - Z.of_nat max_pills) = false)
    by (apply Z.ltb_ge; lia).
  rewrite Hneg. reflexivity.
Qed.

(** C3, as the code has it.  When the reactions of a parent make more than
    10 badges, the first 10 are shown, followed by "+N more" where N is the
    number of badges left out, a collapsed group counting as one.  Shown
    and omitted badges together stand for every reaction; N is at most the
    number of reactions left out, and equal to it exactly when no collapsed
    group is among the omitted badges. *)
Theorem overflow_counts_omitted_badges :
  forall tapbacks : list message,
    (max_pills < length (build_pills tapbacks))%nat ->
    render_tapbacks tapbacks
    = take max_pills (build_pills tapbacks)
      ++ [OverflowPill (Z.of_nat (length (drop max_pills (build_pills tapbacks))))] /\
    length (take max_pills (build_pills tapbacks)) = 10%nat /\
    (referenced_total (take max_pills (build_pills tapbacks))
     + referenced_total (drop max_pills (build_pills tapbacks)))%nat
    = length tapbacks /\
    (length (drop max_pills (build_pills tapbacks))
     <= referenced_total (drop max_pills (build_pills tapbacks)))%nat /\
    (length (drop max_pills (build_pills tapbacks))
     = referenced_total (drop max_pills (build_pills tapbacks))
     <-> forallb (fun p => negb (is_grouped p)) (drop max_pills (build_pills tapbacks))
         = true).
Proof.
  intros tapbacks Hlen.
  split; [| split; [| split]].
  - rewrite (render_tapbacks_overflow tapbacks Hlen), length_drop.
    do 3 f_equal. lia.
  - rewrite length_take. unfold max_pills in *. lia.
  - rewrite <- referenced_total_app, take_drop. apply build_pills_referenced.
  - apply omitted_count.
    apply Forall_drop, build_pills_badge_ok.
Qed.

Lemma overflow_counts_omitted_badges_witness :
  render_tapbacks Reference.sixteen_reactions
  = take 10 (build_pills Reference.sixteen_reactions) ++ [OverflowPill 1].
Proof.
  assert (Hlen : (max_pills < length (build_pills Reference.sixteen_reactions))%nat)
    by (vm_compute; lia).
  destruct (overflow_counts_omitted_badges Reference.sixteen_reactions Hlen)
    as (Hrender & _).
  rewrite Hrender. reflexivity.
Defined.

(** *** Six alike and two apart *)

Lemma with_emoji_In e l t : In t (with_emoji e l) <-> In t l /\ trim (text t) = e.
Proof.
  unfold with_emoji. rewrite filter_In, bool_decide_eq_true. reflexivity.
Qed.

Lemma three_emoji_disjoint e a b l :
  e <> a -> e <> b -> a <> b ->
  (emoji_count e l + emoji_count a l + emoji_count b l <= length l)%nat.
Proof.
  intros Hea Heb Hab. unfold emoji_count, with_emoji.
  induction l as [| x l IH]; cbn; [lia |].
  repeat case_bool_decide; cbn; try congruence; lia.
Qed.

(** With three distinct emoji accounting for every reaction, no other
    emoji occurs. *)
Lemma three_emoji_cover e a b l :
  e <> a -> e <> b -> a <> b ->
  (emoji_count e l + emoji_count a l + emoji_count b l)%nat = length l ->
  forall t, In t l -> trim (text t) = e \/ trim (text t) = a \/ trim (text t) = b.
Proof.
  intros Hea Heb Hab.
  induction l as [| x l IH]; [contradiction |].
  intros Hsum t Hin.
  pose proof (three_emoji_disjoint e a b l Hea Heb Hab) as Hle.
  unfold emoji_count, with_emoji in *. cbn in Hsum.
  destruct (decide (trim (text x) = e)) as [Hx | Hx];
    [| destruct (decide (trim (text x) = a)) as [Hx' | Hx'];
       [| destruct (decide (trim (text x) = b)) as [Hx'' | Hx'']]].
  all: repeat case_bool_decide; try congruence; cbn in Hsum; try lia.
  all: destruct Hin as [<- | Hin]; [tauto | apply IH; [lia | exact Hin]].
Qed.

Lemma emoji_count_pos e l :
  (0 < emoji_count e l)%nat -> In e (map emoji_of l).
Proof.
  unfold emoji_count. intros Hpos.
  destruct (with_emoji e l) as [| t ts] eqn:Hw; [cbn in Hpos; lia |].
  assert (Hin : In t (with_emoji e l)) by (rewrite Hw; left; reflexivity).
  apply with_emoji_In in Hin as [Hin <-].
  apply (in_map emoji_of) in Hin. exact Hin.
Qed.

Lemma singleton_group e l :
  emoji_count e l = 1%nat ->
  exists t, with_emoji e l = [t] /\ group_pills (e, with_emoji e l) = [create_tapback_pill t].
Proof.
  unfold emoji_count. intros Hone.
  destruct (with_emoji e l) as [| t [| t' ts]]; try discriminate.
  exists t. split; reflexivity.
Qed.

(** C2, as the code has it.  Eight reactions to one parent, six with the
    same text and two with texts of their own, render as exactly three
    badges and no overflow indicator: the collapsed badge of the six with
    its count, and one clickable badge for each of the other two; the three
    badges stand for all eight reactions. *)
Theorem six_and_two_make_three_badges :
  forall (tapbacks : list message) (e a b : jstring),
    length tapbacks = 8%nat ->
    emoji_count e tapbacks = 6%nat ->
    emoji_count a tapbacks = 1%nat ->
    emoji_count b tapbacks = 1%nat ->
    e <> a -> e <> b -> a <> b ->
    exists ta tb,
      with_emoji a tapbacks = [ta] /\ with_emoji b tapbacks = [tb] /\
      Permutation (render_tapbacks tapbacks)
        [GroupedPill e 6; create_tapback_pill ta; create_tapback_pill tb] /\
      length (render_tapbacks tapbacks) = 3%nat /\
      referenced_total (render_tapbacks tapbacks) = 8%nat.
Proof.
  intros tapbacks e a b Hlen He Ha Hb Hea Heb Hab.
  set (sorted := sort_by_rx_time tapbacks).
  pose proof (sort_by_rx_time_perm tapbacks) as Hperm. fold sorted in Hperm.
  assert (He' : emoji_count e sorted = 6%nat)
    by (rewrite (emoji_count_perm e _ _ Hperm); exact He).
  assert (Ha' : emoji_count a sorted = 1%nat)
    by (rewrite (emoji_count_perm a _ _ Hperm); exact Ha).
  assert (Hb' : emoji_count b sorted = 1%nat)
    by (rewrite (emoji_count_perm b _ _ Hperm); exact Hb).
  assert (Hlen' : length sorted = 8%nat)
    by (rewrite (Permutation_length Hperm); exact Hlen).
  destruct (group_by_emoji_spec sorted) as (Hnd & Hkeys & Hgroups & _).
  set (keys := map fst (group_by_emoji sorted)) in *.
  assert (Hk : Permutation keys [e; a; b]).
  { apply NoDup_Permutation; [exact Hnd | |].
    - repeat constructor; rewrite ?list_elem_of_In; cbn; intuition congruence.
    - intros k. rewrite !list_elem_of_In, Hkeys. cbn [In]. split.
      + intros Hin. apply in_map_iff in Hin as (t & <- & Hin).
        destruct (three_emoji_cover e a b sorted Hea Heb Hab ltac:(lia) t Hin)
          as [-> | [-> | ->]]; auto.
      + intros [<- | [<- | [<- | []]]]; apply emoji_count_pos; lia. }
  destruct (singleton_group a sorted Ha') as (ta & Hta & Hpa).
  destruct (singleton_group b sorted Hb') as (tb & Htb & Hpb).
  assert (Hpills : Permutation (build_pills tapbacks)
                     [GroupedPill e 6; create_tapback_pill ta; create_tapback_pill tb]).
  { unfold build_pills. fold sorted. rewrite Hgroups. fold keys.
    rewrite Hk. cbn [map flat_map]. rewrite Hpa, Hpb.
    unfold group_pills, create_grouped_tapback. unfold emoji_count in He'.
    rewrite He'. reflexivity. }
  assert (Hrender : render_tapbacks tapbacks = build_pills tapbacks).
  { apply render_tapbacks_no_overflow.
    rewrite (Permutation_length Hpills). unfold max_pills. cbn. lia. }
  exists ta, tb. rewrite Hrender.
  assert (Hsingle : forall k t, with_emoji k sorted = [t] -> with_emoji k tapbacks = [t]).
  { intros k t Hs.
    pose proof (filter_perm (fun t => bool_decide (trim (text t) = k)) _ _ Hperm) as Hp.
    fold (with_emoji k sorted) in Hp. fold (with_emoji k tapbacks) in Hp.
    rewrite Hs in Hp. apply Permutation_length_1_inv in Hp. exact Hp. }
  split; [apply Hsingle, Hta |]. split; [apply Hsingle, Htb |].
  split; [exact Hpills |].
  split; [apply (Permutation_length Hpills) |].
  rewrite build_pills_referenced. exact Hlen.
Qed.

Lemma six_and_two_make_three_badges_witness :
  Permutation (render_tapbacks Reference.eight_reactions)
    [GroupedPill Reference.thumbs_up 6;
     create_tapback_pill (Reference.reaction 17 150 1001 Reference.heart);
     create_tapback_pill (Reference.reaction 18 250 1001 Reference.party)].
Proof.
  destruct (six_and_two_make_three_badges Reference.eight_reactions
              Reference.thumbs_up Reference.heart Reference.party)
    as (ta & tb & Hta & Htb & Hperm & _);
    try (vm_compute; reflexivity); try discriminate.
  injection Hta as <-. injection Htb as <-. exact Hperm.
Defined.

End Render.

(** C2 does not hold as stated: the eight reactions make three badges, which
    is under the cap of ten, so all three are shown and there is no overflow
    indicator. *)
Lemma six_and_two_have_no_overflow :
  emoji_count Reference.thumbs_up Reference.eight_reactions = 6%nat /\
  emoji_count Reference.heart Reference.eight_reactions = 1%nat /\
  emoji_count Reference.party Reference.eight_reactions = 1%nat /\
  length Reference.eight_reactions = 8%nat /\
  render_tapbacks Reference.eight_reactions
  = [TapbackPill 1017 Reference.heart None;
     GroupedPill Reference.thumbs_up 6;
     TapbackPill 1018 Reference.party None] /\
  ~ In (OverflowPill 1) (render_tapbacks Reference.eight_reactions).
Proof.
  repeat split; try (vm_compute; reflexivity).
  vm_compute. intros H. repeat destruct H as [H | H]; try discriminate. exact H.
Qed.

(** C3 does not hold as stated: of sixteen reactions, five hearts and five
    party poppers take the ten badges and the six thumbs up are left out as
    one collapsed badge; the indicator reads "+1 more", not "+6 more". *)
Lemma overflow_is_not_the_reaction_count :
  length Reference.sixteen_reactions = 16%nat /\
  length (build_pills Reference.sixteen_reactions) = 11%nat /\
  drop 10 (build_pills Reference.sixteen_reactions) = [GroupedPill Reference.thumbs_up 6] /\
  referenced_total (take 10 (build_pills Reference.sixteen_reactions)) = 10%nat /\
  referenced_total (drop 10 (build_pills Reference.sixteen_reactions)) = 6%nat /\
  last (render_tapbacks Reference.sixteen_reactions) = Some (OverflowPill 1).
Proof. vm_compute. repeat split. Qed.

(** ** Resuming a conversation whose read position was pruned *)

Section ResumeFallback.

Variable grapheme_segments : jstring -> list jstring.
Variable extended_pictographic : jstring -> bool.

Local Abbreviation is_tapback := (Tapback.is_tapback grapheme_segments extended_pictographic).
Local Abbreviation view := (render_messages_view grapheme_segments extended_pictographic).
Local Abbreviation fresh_load :=
  (render_messages_fresh grapheme_segments extended_pictographic).
Local Abbreviation render_dom :=
  (render_messages_dom grapheme_segments extended_pictographic).

Lemma created_items_skeleton page w :
  template_message_item (page_templates w) = true ->
  map li_skeleton (omap (fun m => create_message_item m w) page)
  = map (fun m => (message_id m, rx_time m, false)) page.
Proof.
  intros Htpl. unfold create_message_item. rewrite Htpl.
  induction page as [| m ms IH]; [reflexivity |]. cbn. f_equal. exact IH.
Qed.





End ResumeFallback.


(** * Further properties of the code *)

(** ** Cursor update from a page *)

(** X1. [update_message_cursors] takes both availability flags and the total
    from the meta of the page, leaves the four boundary fields alone on an
    empty page, and on any page moves a bound that is set only outward: the
    oldest key does not increase and the newest key does not decrease. *)
Theorem update_message_cursors_extends_window :
  forall (data : api_response) (s : app_state),
    messages_oldest_rx_time s <> None ->
    messages_newest_rx_time s <> None ->
    messages_has_more_older (update_message_cursors data s) = has_more_older (meta data) /\
    messages_has_more_newer (update_message_cursors data s) = has_more_newer (meta data) /\
    messages_total (update_message_cursors data s) = total (meta data) /\
    (rows data = [] ->
     cursor_fields (update_message_cursors data s) = cursor_fields s) /\
    key_le (oldest_key (update_message_cursors data s)) (oldest_key s) /\
    key_le (newest_key s) (newest_key (update_message_cursors data s)).
Proof.
  intros data s Hold Hnew.
  destruct (update_message_cursors_monotone data s) as [Ho Hn].
  split; [| split; [| split; [| split; [| split]]]].
  - unfold update_message_cursors. repeat case_match; reflexivity.
  - unfold update_message_cursors. repeat case_match; reflexivity.
  - unfold update_message_cursors. repeat case_match; reflexivity.
  - intros Hrows. unfold update_message_cursors. rewrite Hrows. reflexivity.
  - apply Ho, Hold.
  - apply Hn, Hnew.
Qed.

Lemma update_message_cursors_extends_window_witness :
  key_le (oldest_key (update_message_cursors Reference.page_inside (app Reference.resumed)))
         (oldest_key (app Reference.resumed)) /\
  cursor_fields (update_message_cursors Reference.page_inside (app Reference.resumed))
  = (Some 100, Some 1, Some 104, Some 5).
Proof.
  destruct (update_message_cursors_extends_window Reference.page_inside
              (app Reference.resumed)) as (_ & _ & _ & _ & Hold & _);
    try (vm_compute; discriminate).
  split; [exact Hold | vm_compute; reflexivity].
Defined.


(** ** The stored read positions *)

Lemma pretty_N_go_ne_null x s : s <> "null" -> pretty_N_go x s <> "null".
Proof.
  revert s. induction (N.lt_wf_0 x) as [x _ IH]; intros s Hs.
  assert (x = 0 \/ 0 < x)%N as [-> | Hpos] by lia.
  - rewrite pretty_N_go_0. exact Hs.
  - rewrite pretty_N_go_step by exact Hpos. apply IH.
    + apply N.div_lt; [exact Hpos | reflexivity].
    + unfold pretty_N_char. repeat case_match; discriminate.
Qed.

(** A number never prints as the word that [null] prints as. *)
Lemma pretty_Z_ne_null (c : Z) : pretty c <> "null".
Proof.
  destruct c as [| p | p]; unfold pretty, pretty_Z; [discriminate | | discriminate].
  unfold pretty, pretty_positive, pretty, pretty_N.
  case_decide; [discriminate |]. apply pretty_N_go_ne_null. discriminate.
Qed.

(** The storage keys tell the conversations apart. *)
Lemma build_last_read_key_inj is_dm ch is_dm' ch' :
  build_last_read_key is_dm ch = build_last_read_key is_dm' ch' <->
  same_conversation is_dm ch is_dm' ch'.
Proof.
  unfold build_last_read_key, same_conversation. split.
  - destruct is_dm, is_dm'; cbn; intros Hkey; try discriminate.
    + left. auto.
    + right. repeat split. injection Hkey as Hkey.
      destruct ch as [c |], ch' as [c' |]; try reflexivity.
      * f_equal. apply (inj pretty). exact Hkey.
      * destruct (pretty_Z_ne_null c Hkey).
      * destruct (pretty_Z_ne_null c' (eq_sym Hkey)).
  - intros [[-> ->] | (-> & -> & ->)]; reflexivity.
Qed.

(** X2. With the storage available, [get_last_read] returns what
    [set_last_read] stored for the same conversation, and a write for one
    conversation changes the stored position of no other: the direct
    messages and each channel have a key of their own. *)
Theorem last_read_round_trip :
  forall (is_dm : bool) (channel_index : option Z) (mid rx : Z) (w : world)
         (store : gmap string ls_value),
    local_storage w = Some store ->
    (forall is_dm' channel_index',
       same_conversation is_dm channel_index is_dm' channel_index' ->
       get_last_read is_dm' channel_index'
         (set_last_read is_dm channel_index mid (Some rx) w)
       = Some (ReadPosition mid rx)) /\
    (forall is_dm' channel_index',
       ~ same_conversation is_dm channel_index is_dm' channel_index' ->
       get_last_read is_dm' channel_index'
         (set_last_read is_dm channel_index mid (Some rx) w)
       = get_last_read is_dm' channel_index' w).
Proof.
  intros is_dm ch mid rx w store Hstore. split; intros is_dm' ch' Hconv.
  - apply build_last_read_key_inj in Hconv.
    unfold get_last_read, set_last_read. rewrite Hstore. cbn.
    rewrite <- Hconv, lookup_insert_eq. reflexivity.
  - unfold get_last_read, set_last_read. rewrite Hstore. cbn.
    rewrite lookup_insert_ne; [reflexivity |].
    intros Hkey. apply Hconv, build_last_read_key_inj, Hkey.
Qed.

Lemma last_read_round_trip_witness :
  get_last_read false (Some 3)
    (set_last_read false (Some 3) 77 (Some 500) Reference.loaded)
  = Some (ReadPosition 77 500) /\
  get_last_read false (Some 0)
    (set_last_read false (Some 3) 77 (Some 500) Reference.loaded)
  = Some (ReadPosition 1003 102).
Proof.
  assert (Hstore : exists store, local_storage Reference.loaded = Some store)
    by (vm_compute; eauto).
  destruct Hstore as [store Hstore].
  destruct (last_read_round_trip false (Some 3) 77 500 Reference.loaded store Hstore)
    as [Hsame Hother].
  split.
  - apply Hsame. right. auto.
  - rewrite Hother; [vm_compute; reflexivity |].
    intros [[Hdm _] | (_ & _ & Hch)]; discriminate.
Defined.

(** Without storage nothing is written and nothing is found; and a record
    stored with a [null] time reads back as no position. *)
Lemma last_read_unavailable is_dm ch mid rx w :
  local_storage w = None ->
  set_last_read is_dm ch mid rx w = w /\ get_last_read is_dm ch w = None.
Proof.
  intros Hnone. unfold set_last_read, get_last_read. rewrite Hnone. auto.
Qed.

Lemma last_read_null_time is_dm ch mid w :
  get_last_read is_dm ch (set_last_read is_dm ch mid None w) = None.
Proof.
  unfold get_last_read, set_last_read.
  destruct (local_storage w) as [store |] eqn:Hs; cbn; [| rewrite Hs; reflexivity].
  rewrite lookup_insert_eq. reflexivity.
Qed.

(** ** The viewport scan *)

Lemma scan_visible_spec lay i items last_read_item :
  scan_visible lay i items last_read_item
  = (map mark_message_read (take (leading_in_view lay i items) items)
     ++ drop (leading_in_view lay i items) items,
     match List.last (map Some (take (leading_in_view lay i items) items)) None with
     | Some item => Some (mark_message_read item)
     | None => last_read_item
     end).
Proof.
  revert i last_read_item.
  induction items as [| item rest IH]; intros i last_read_item; [reflexivity |].
  cbn [scan_visible leading_in_view].
  destruct (item_top lay i <? container_bottom lay); [| reflexivity].
  rewrite IH. cbn [take drop map app]. f_equal.
  destruct (take (leading_in_view lay (S i) rest) rest) as [| x xs] eqn:Htake;
    [reflexivity |].
  cbn [map]. change (List.last (Some item :: Some x :: map Some xs) None)
    with (List.last (Some x :: map Some xs) None).
  destruct (List.last (Some x :: map Some xs) None) eqn:Hlast; [reflexivity |].
  exfalso. clear -Hlast. revert x Hlast.
  induction xs as [| y ys IH]; intros x Hlast; [discriminate |].
  apply (IH y). exact Hlast.
Qed.

Lemma update_read_position_elements lay w r u :
  get_messages_list w = Some r ->
  elements w !! r = Some u ->
  elements (update_read_position lay w)
  = alter (fun u => Ul (scan_visible lay 0 (ul_items u) None).1 (ul_scroll_top u)) r
      (elements w) /\
  content (update_read_position lay w) = content w /\
  mobile_layout (update_read_position lay w) = mobile_layout w.
Proof.
  intros Hr Hu. unfold update_read_position. rewrite Hr, Hu.
  destruct (scan_visible lay 0 (ul_items u) None) as [items' last_read_item] eqn:Hscan.
  assert (Halter : alter (fun u0 => Ul (scan_visible lay 0 (ul_items u0) None).1
                                       (ul_scroll_top u0)) r (elements w)
                   = alter (fun u0 => Ul items' (ul_scroll_top u0)) r (elements w)).
  { apply (map_eq (M := gmap nat)). intros j.
    destruct (decide (r = j)) as [<- | Hne].
    - rewrite !lookup_alter_eq, Hu. cbn. rewrite Hscan. reflexivity.
    - rewrite !lookup_alter_ne by exact Hne. reflexivity. }
  rewrite Halter.
  destruct last_read_item as [item |]; [| repeat split].
  destruct (truthy (li_message_id item) && truthy (to_number (li_rx_time item)));
    [| repeat split].
  destruct (is_newer_than _ _ _); [| repeat split].
  unfold set_last_read. cbn [local_storage update_items with_elements].
  destruct (local_storage w); repeat split.
Qed.

(** X3. A scan marks as read exactly the leading run of items whose top edge
    is above the bottom of the list, and stops at the first item that is
    not: the items after it stay as they are, also when one of them is in
    view.  No read mark is ever removed, and no item is added, removed or
    reordered. *)
Theorem update_read_position_marks_leading_run :
  forall (lay : layout) (w : world) (r : nat) (u : ul),
    get_messages_list w = Some r ->
    elements w !! r = Some u ->
    window (update_read_position lay w)
    = map mark_message_read (take (leading_in_view lay 0 (ul_items u)) (ul_items u))
      ++ drop (leading_in_view lay 0 (ul_items u)) (ul_items u) /\
    window_ids (update_read_position lay w) = window_ids w /\
    (forall i item,
       window w !! i = Some item -> li_read item = true ->
       exists item', window (update_read_position lay w) !! i = Some item'
                     /\ li_read item' = true).
Proof.
  intros lay w r u Hr Hu.
  destruct (update_read_position_elements lay w r u Hr Hu) as (Hel & Hcontent & _).
  assert (Hwin : window (update_read_position lay w)
                 = map mark_message_read
                     (take (leading_in_view lay 0 (ul_items u)) (ul_items u))
                   ++ drop (leading_in_view lay 0 (ul_items u)) (ul_items u)).
  { unfold window, get_messages_list. rewrite Hcontent.
    unfold get_messages_list in Hr. rewrite Hr, Hel, lookup_alter_eq, Hu. cbn.
    rewrite scan_visible_spec. reflexivity. }
  assert (Hw : window w = ul_items u) by (unfold window; rewrite Hr, Hu; reflexivity).
  split; [exact Hwin |]. split.
  - unfold window_ids. rewrite Hwin, Hw, map_app, map_map. cbn.
    rewrite <- map_app, take_drop. reflexivity.
  - intros i item Hi Hread. rewrite Hwin. rewrite Hw in Hi.
    set (k := leading_in_view lay 0 (ul_items u)) in *.
    rewrite <- (take_drop k (ul_items u)) in Hi.
    destruct (decide (i < length (take k (ul_items u)))%nat) as [Hlt | Hge].
    + rewrite lookup_app_l in Hi by exact Hlt.
      exists (mark_message_read item). split; [| reflexivity].
      rewrite lookup_app_l by (rewrite length_map; exact Hlt).
      change (map mark_message_read) with (fmap (M := list) mark_message_read) at 1.
      rewrite list_lookup_fmap, Hi. reflexivity.
    + rewrite lookup_app_r in Hi by lia.
      exists item. split; [| exact Hread].
      rewrite lookup_app_r by (rewrite length_map; lia).
      rewrite length_map. exact Hi.
Qed.

Lemma update_read_position_marks_leading_run_witness :
  map li_read
    (window (update_read_position (Layout 500 (fun i => match i with
                                                        | 1%nat => 600
                                                        | _ => 0
                                                        end))
               Reference.resumed))
  = [true; true; true; false; false].
Proof.
  assert (Hu : exists u, elements Reference.resumed !! 1%nat = Some u)
    by (vm_compute; eauto).
  destruct Hu as [u Hu].
  destruct (update_read_position_marks_leading_run
              (Layout 500 (fun i => match i with 1%nat => 600 | _ => 0 end))
              Reference.resumed 1%nat u eq_refl Hu) as (Hwin & _).
  rewrite Hwin. vm_compute in Hu. injection Hu as <-. vm_compute. reflexivity.
Defined.

(** ** Saving the scroll offset on leaving *)

Lemma update_read_position_app lay w : app (update_read_position lay w) = app w.
Proof. apply update_read_position_storage. Qed.

Lemma update_read_position_frame lay w :
  content (update_read_position lay w) = content w /\
  mobile_layout (update_read_position lay w) = mobile_layout w.
Proof.
  destruct (get_messages_list w) as [r |] eqn:Hr.
  - destruct (elements w !! r) as [u |] eqn:Hu.
    + destruct (update_read_position_elements lay w r u Hr Hu) as (_ & Hc & Hm). auto.
    + unfold update_read_position. rewrite Hr, Hu. auto.
  - unfold update_read_position. rewrite Hr. auto.
Qed.

(** X4. Leaving a channel or the direct messages with the list on display
    and a positive scroll offset saves that offset with its context, and the
    view that next asks for the same conversation gets it back and finds
    the saved position cleared. *)
Theorem saved_scroll_round_trip :
  forall (lay : layout) (pos : Z) (w : world) (r : nat),
    current_view (app w) = ViewChannel \/ current_view (app w) = ViewDirectMessages ->
    get_messages_list w = Some r ->
    0 < pos ->
    consume_saved_scroll_position
      (bool_decide (current_view (app w) = ViewDirectMessages))
      (current_channel_index (app w))
      (app (save_read_position_before_leave lay pos w))
    = (Some (SavedScroll pos (mobile_layout w)),
       clear_saved_scroll_position (app (save_read_position_before_leave lay pos w))).
Proof.
  intros lay pos w r Hview Hr Hpos.
  assert (Hsave : app (save_read_position_before_leave lay pos w)
                  = set_saved_scroll (Some pos) (mobile_layout w)
                      (current_channel_index (app w))
                      (bool_decide (current_view (app w) = ViewDirectMessages)) (app w)).
  { unfold save_read_position_before_leave.
    destruct (update_read_position_frame lay w) as [Hc Hm].
    assert (Hr' : get_messages_list (update_read_position lay w) = Some r)
      by (unfold get_messages_list in *; rewrite Hc; exact Hr).
    apply Z.ltb_lt in Hpos.
    destruct Hview as [Hv | Hv]; rewrite Hv, Hr', Hpos; cbn [app with_app];
      rewrite update_read_position_app, Hm, Hv; reflexivity. }
  rewrite Hsave. unfold consume_saved_scroll_position. cbn.
  rewrite (bool_decide_eq_true_2 _ eq_refl). cbn [negb].
  rewrite (bool_decide_eq_true_2 _ eq_refl). cbn.
  rewrite andb_false_r. reflexivity.
Qed.

Lemma saved_scroll_round_trip_witness :
  (consume_saved_scroll_position false (Some 0)
     (app (save_read_position_before_leave Reference.first_in_view 240
             Reference.resumed))).1
  = Some (SavedScroll 240 false).
Proof.
  pose proof (saved_scroll_round_trip Reference.first_in_view 240 Reference.resumed 1%nat
                (or_introl eq_refl) eq_refl ltac:(lia)) as H.
  apply (f_equal fst) in H. exact H.
Defined.

Lemma save_read_position_elsewhere lay pos w :
  current_view (app w) <> ViewChannel ->
  current_view (app w) <> ViewDirectMessages ->
  save_read_position_before_leave lay pos w = w.
Proof.
  intros Hc Hd. unfold save_read_position_before_leave.
  destruct (current_view (app w)); congruence.
Qed.

(** ** The badges of one parent *)

Lemma build_pills_no_overflow tapbacks :
  Forall (fun p => is_overflow p = false) (build_pills tapbacks).
Proof.
  eapply Forall_impl; [apply build_pills_badge_ok |].
  intros [tid e a | e n | n]; cbn; auto. discriminate.
Qed.

(** X5. [render_tapbacks] shows the first ten badges and, only when there are
    more, one "+N more" element after them: a container never holds more than
    eleven children, the overflow element is never among the first ten, and
    with ten badges or fewer all of them are shown and nothing else. *)
Theorem render_tapbacks_cap :
  forall tapbacks : list message,
    render_tapbacks tapbacks
    = take 10 (build_pills tapbacks)
      ++ (if bool_decide (10 < length (build_pills tapbacks))%nat
          then [OverflowPill (Z.of_nat (length (build_pills tapbacks) - 10))]
          else []) /\
    (length (render_tapbacks tapbacks) <= 11)%nat /\
    Forall (fun p => is_overflow p = false) (take 10 (build_pills tapbacks)).
Proof.
  intros tapbacks.
  assert (Hrender : render_tapbacks tapbacks
                    = take 10 (build_pills tapbacks)
                      ++ (if bool_decide (10 < length (build_pills tapbacks))%nat
                          then [OverflowPill (Z.of_nat (length (build_pills tapbacks) - 10))]
                          else [])).
  { case_bool_decide as Hlen.
    - rewrite render_tapbacks_overflow by exact Hlen.
      unfold max_pills. do 3 f_equal. lia.
    - rewrite render_tapbacks_no_overflow by (unfold max_pills; lia).
      rewrite app_nil_r, take_ge by lia. reflexivity. }
  split; [exact Hrender |]. split.
  - rewrite Hrender, length_app, length_take. case_bool_decide; cbn [length]; lia.
  - apply Forall_take, build_pills_no_overflow.
Qed.

Lemma sorted_In tapbacks t : In t (sort_by_rx_time tapbacks) <-> In t tapbacks.
Proof.
  split; apply Permutation_in;
    [apply sort_by_rx_time_perm | symmetry; apply sort_by_rx_time_perm].
Qed.

Lemma build_pills_In p tapbacks :
  In p (build_pills tapbacks) <->
  exists k, In k (map (fun t => trim (text t)) tapbacks)
            /\ In p (group_pills (k, with_emoji k (sort_by_rx_time tapbacks))).
Proof.
  unfold build_pills.
  destruct (group_by_emoji_spec (sort_by_rx_time tapbacks)) as (_ & Hkeys & Hgroups & _).
  rewrite Hgroups, in_flat_map. split.
  - intros ([k g] & Hin & Hp). apply in_map_iff in Hin as (k' & [= <- <-] & Hk).
    exists k'. split; [| exact Hp].
    apply Hkeys in Hk. apply in_map_iff in Hk as (t & <- & Ht).
    apply in_map_iff. exists t. split; [reflexivity | apply sorted_In, Ht].
  - intros (k & Hk & Hp).
    exists (k, with_emoji k (sort_by_rx_time tapbacks)). split; [| exact Hp].
    apply in_map_iff. exists k. split; [reflexivity |].
    apply Hkeys. apply in_map_iff in Hk as (t & <- & Ht).
    apply in_map_iff. exists t. split; [reflexivity | apply sorted_In, Ht].
Qed.

Lemma emoji_count_sorted e tapbacks :
  length (with_emoji e (sort_by_rx_time tapbacks)) = emoji_count e tapbacks.
Proof. apply (emoji_count_perm e), sort_by_rx_time_perm. Qed.

(** X6. The grouping rule of the badges.  A count badge for an emoji is
    among the badges exactly when more than five of the reactions have that
    trimmed text, and then it carries their number.  A clickable badge is
    among them exactly for the reactions whose trimmed text is shared by at
    most five. *)
Theorem badge_grouping_rule :
  forall (tapbacks : list message),
    (forall e n,
       In (GroupedPill e n) (build_pills tapbacks) <->
       emoji_count e tapbacks = n /\ (5 < n)%nat) /\
    (forall p,
       is_grouped p = false ->
       (In p (build_pills tapbacks) <->
        exists t, In t tapbacks /\ p = create_tapback_pill t
                  /\ (emoji_count (trim (text t)) tapbacks <= 5)%nat)).
Proof.
  intros tapbacks. split.
  - intros e n. rewrite build_pills_In. split.
    + intros (k & _ & Hp). unfold group_pills in Hp.
      rewrite emoji_count_sorted in Hp. case_bool_decide as Hsize.
      * destruct Hp as [[= <- <-] | []]. auto.
      * apply in_map_iff in Hp as (t & Ht & _). discriminate.
    + intros [<- Hsize]. exists e. split.
      * apply emoji_count_pos. lia.
      * unfold group_pills. rewrite emoji_count_sorted.
        rewrite (bool_decide_eq_true_2 _ Hsize). left. reflexivity.
  - intros p Hp. rewrite build_pills_In. split.
    + intros (k & _ & Hin). unfold group_pills in Hin.
      rewrite emoji_count_sorted in Hin. case_bool_decide as Hsize.
      * destruct Hin as [<- | []]. discriminate.
      * apply in_map_iff in Hin as (t & <- & Ht).
        apply with_emoji_In in Ht as [Ht <-].
        exists t. split; [apply sorted_In, Ht |]. split; [reflexivity | lia].
    + intros (t & Ht & -> & Hsize). exists (trim (text t)). split.
      * apply in_map_iff. exists t. auto.
      * unfold group_pills. rewrite emoji_count_sorted.
        rewrite bool_decide_eq_false_2 by lia.
        apply in_map, with_emoji_In. split; [apply sorted_In, Ht | reflexivity].
Qed.

Lemma badge_grouping_rule_witness :
  In (TapbackPill 1017 Reference.heart None) (build_pills Reference.eight_reactions).
Proof.
  destruct (badge_grouping_rule Reference.eight_reactions) as [_ Hsingle].
  apply (Hsingle (TapbackPill 1017 Reference.heart None) eq_refl).
  exists (Reference.reaction 17 150 1001 Reference.heart).
  split; [vm_compute; tauto |]. split; [reflexivity | vm_compute; lia].
Defined.

(** ** White space around a reaction *)

Lemma trim_start_white_prefix pre s :
  all_white_space pre -> trim_start (pre ++ s) = trim_start s.
Proof.
  induction 1 as [| c pre Hc _ IH]; [reflexivity |]. cbn. rewrite Hc. exact IH.
Qed.

Lemma trim_start_white post : all_white_space post -> trim_start post = [].
Proof.
  intros H. rewrite <- (app_nil_r post). rewrite trim_start_white_prefix by exact H.
  reflexivity.
Qed.

Lemma trim_start_white_suffix s post :
  all_white_space post ->
  trim_start (s ++ post)
  = match trim_start s with
    | [] => []
    | _ => trim_start s ++ post
    end.
Proof.
  intros Hpost. induction s as [| c s IH]; cbn.
  - apply trim_start_white, Hpost.
  - destruct (is_white_space c); [exact IH | reflexivity].
Qed.

Lemma all_white_space_rev s : all_white_space s -> all_white_space (rev s).
Proof. unfold all_white_space. rewrite !Forall_forall. intros H c Hc.
  apply H. apply list_elem_of_In. apply list_elem_of_In in Hc.
  apply in_rev. exact Hc.
Qed.

Lemma trim_padded pre s post :
  all_white_space pre -> all_white_space post ->
  trim (pre ++ s ++ post) = trim s.
Proof.
  intros Hpre Hpost. unfold trim.
  rewrite trim_start_white_prefix by exact Hpre.
  rewrite trim_start_white_suffix by exact Hpost.
  destruct (trim_start s) as [| c rest] eqn:Hs; [reflexivity |].
  rewrite rev_app_distr.
  rewrite trim_start_white_prefix by (apply all_white_space_rev, Hpost).
  reflexivity.
Qed.

(** X7. White space around the text of a reply changes neither whether it
    counts as a reaction nor the emoji it is grouped and shown under: both
    are decided on the trimmed text. *)
Theorem reaction_ignores_padding :
  forall (grapheme_segments : jstring -> list jstring)
         (extended_pictographic : jstring -> bool)
         (pre post : jstring) (m : message),
    all_white_space pre -> all_white_space post ->
    let padded := Message (id m) (message_id m) (rx_time m) (pre ++ text m ++ post)
                    (reply_to m) (from_node_short_name m) in
    Tapback.is_tapback grapheme_segments extended_pictographic padded
    = Tapback.is_tapback grapheme_segments extended_pictographic m /\
    create_tapback_pill padded = create_tapback_pill m.
Proof.
  intros seg pict pre post m Hpre Hpost padded.
  assert (Htrim : trim (text padded) = trim (text m))
    by (apply trim_padded; assumption).
  split.
  - unfold Tapback.is_tapback. cbn [reply_to padded].
    destruct (reply_to m); [| reflexivity].
    unfold is_emoji_only. rewrite Htrim.
    destruct (text m) as [| c rest] eqn:Hm.
    + destruct (text padded); reflexivity.
    + destruct (text padded) as [| c' rest'] eqn:Hp; [| reflexivity].
      cbn in Hp. apply app_eq_nil in Hp as [_ Hp]. discriminate.
  - unfold create_tapback_pill. rewrite Htrim. reflexivity.
Qed.

Lemma reaction_ignores_padding_witness :
  Reference.is_tapback
    (Message 1 2 (Some 3) ([32; 9] ++ Reference.thumbs_up ++ [10])%N (Some 4) [])
  = true.
Proof.
  pose proof (reaction_ignores_padding Reference.grapheme_segments
                Reference.extended_pictographic [32; 9]%N [10]%N
                (Message 1 2 (Some 3) Reference.thumbs_up (Some 4) [])) as H.
  destruct H as [H _].
  - repeat constructor.
  - repeat constructor.
  - unfold Reference.is_tapback. cbn [id message_id rx_time text reply_to
      from_node_short_name] in H. rewrite H. vm_compute. reflexivity.
Defined.

(** ** The shape of the window after a merge *)

Section MergeShape.

Variable grapheme_segments : jstring -> list jstring.
Variable extended_pictographic : jstring -> bool.

Local Abbreviation is_tapback := (Tapback.is_tapback grapheme_segments extended_pictographic).
Local Abbreviation append_messages :=
  (append_messages_to_list grapheme_segments extended_pictographic).
Local Abbreviation prepend_messages :=
  (prepend_messages_to_list grapheme_segments extended_pictographic).

Lemma created_items_entry_skeleton page w :
  template_message_item (page_templates w) = true ->
  map li_skeleton (omap (fun m => create_message_item m w) page)
  = map (entry_skeleton false) page.
Proof. apply created_items_skeleton. Qed.

Lemma created_items_read_skeleton page w :
  template_message_item (page_templates w) = true ->
  map li_skeleton (map mark_message_read (omap (fun m => create_message_item m w) page))
  = map (entry_skeleton true) page.
Proof.
  intros Htpl. unfold create_message_item. rewrite Htpl.
  induction page as [| m ms IH]; [reflexivity |]. cbn. f_equal. exact IH.
Qed.

Lemma tapback_frame_window_skeleton w w' :
  tapback_frame w w' -> window_skeleton w' = window_skeleton w.
Proof.
  intros (_ & Hc & _ & _ & _ & _ & Hel).
  unfold window_skeleton, window, get_messages_list. rewrite Hc.
  destruct (content w); try reflexivity.
  specialize (Hel messages_list).
  destruct (elements w' !! messages_list) as [u' |],
           (elements w !! messages_list) as [u |]; cbn in Hel; try discriminate;
    [| reflexivity].
  injection Hel as Hmap _. exact Hmap.
Qed.

Lemma tapback_frame_window_scroll_top w w' :
  tapback_frame w w' -> window_scroll_top w' = window_scroll_top w.
Proof.
  intros (_ & Hc & _ & _ & _ & _ & Hel).
  unfold window_scroll_top, get_messages_list. rewrite Hc.
  destruct (content w); try reflexivity.
  specialize (Hel messages_list).
  destruct (elements w' !! messages_list) as [u' |],
           (elements w !! messages_list) as [u |]; cbn in Hel; try discriminate;
    [| reflexivity].
  injection Hel as _ Hscroll. cbn. f_equal. exact Hscroll.
Qed.

Lemma window_skeleton_update_items r u f w :
  get_messages_list w = Some r ->
  elements w !! r = Some u ->
  window_skeleton (update_items r f w) = map li_skeleton (f (ul_items u)).
Proof.
  intros Hr Hu. unfold window_skeleton, window.
  change (get_messages_list (update_items r f w)) with (get_messages_list w).
  rewrite Hr. cbn. rewrite lookup_alter_eq, Hu. reflexivity.
Qed.

Lemma window_skeleton_live r u w :
  get_messages_list w = Some r ->
  elements w !! r = Some u ->
  window_skeleton w = map li_skeleton (ul_items u).
Proof. intros Hr Hu. unfold window_skeleton, window. rewrite Hr, Hu. reflexivity. Qed.

(** An append to the list on display: the items that were there keep their
    place and their read mark, the primary entries of the page follow them
    unread; nothing outside the list, its tapbacks and the pending map
    changes. *)
Lemma append_messages_live r u page w :
  get_messages_list w = Some r ->
  elements w !! r = Some u ->
  template_message_item (page_templates w) = true ->
  window_skeleton (append_messages r page w)
  = window_skeleton w ++ map (entry_skeleton false) (primary_entries is_tapback page) /\
  app (append_messages r page w) = app w /\
  content (append_messages r page w) = content w /\
  local_storage (append_messages r page w) = local_storage w /\
  window_scroll_top (append_messages r page w) = window_scroll_top w.
Proof.
  intros Hr Hu Htpl.
  pose proof (append_messages_frame grapheme_segments extended_pictographic r page w)
    as Hframe.
  split; [| split; [| split; [| split]]].
  - rewrite (tapback_frame_window_skeleton _ _ Hframe).
    rewrite (window_skeleton_update_items r u _ w Hr Hu), map_app.
    rewrite (created_items_entry_skeleton _ w Htpl), (window_skeleton_live r u w Hr Hu).
    reflexivity.
  - destruct Hframe as (H & _). exact H.
  - destruct Hframe as (_ & H & _). exact H.
  - destruct Hframe as (_ & _ & H & _). exact H.
  - rewrite (tapback_frame_window_scroll_top _ _ Hframe).
    unfold window_scroll_top.
    change (get_messages_list (update_items r _ w)) with (get_messages_list w).
    rewrite Hr. cbn. rewrite lookup_alter_eq, Hu. reflexivity.
Qed.

(** A prepend to the list on display: the primary entries of the page come
    first, marked read; the items that were there follow unchanged. *)
Lemma prepend_messages_live r u page w :
  get_messages_list w = Some r ->
  elements w !! r = Some u ->
  template_message_item (page_templates w) = true ->
  window_skeleton (prepend_messages r page w)
  = map (entry_skeleton true) (primary_entries is_tapback page) ++ window_skeleton w /\
  app (prepend_messages r page w) = app w /\
  content (prepend_messages r page w) = content w /\
  local_storage (prepend_messages r page w) = local_storage w.
Proof.
  intros Hr Hu Htpl.
  unfold prepend_messages_to_list.
  match goal with
  | |- context [flush_pending_tapbacks (attach_or_store ?ts ?w0)] =>
    pose proof (tapback_frame_trans _ _ _
                  (tapback_frame_attach_or_store ts w0)
                  (tapback_frame_flush (attach_or_store ts w0))) as Hframe;
    set (w1 := flush_pending_tapbacks (attach_or_store ts w0)) in *
  end.
  assert (Hskel : window_skeleton w1
                  = map (entry_skeleton true) (primary_entries is_tapback page)
                    ++ window_skeleton w).
  { rewrite (tapback_frame_window_skeleton _ _ Hframe).
    rewrite (window_skeleton_update_items r u _ w Hr Hu), map_app.
    rewrite (window_skeleton_live r u w Hr Hu). f_equal.
    apply created_items_read_skeleton, Htpl. }
  destruct Hframe as (Happ & Hc & Hls & _ & Hmob & _ & Hel).
  assert (Hshift : window_skeleton
                     (if mobile_layout w1
                      then set_window_scroll (ScrollPlusHeightDiff (window_scroll w1)) w1
                      else with_elements
                             (alter (fun u0 => Ul (ul_items u0)
                                                 (ScrollPlusHeightDiff (ul_scroll_top u0))) r)
                             w1)
                   = window_skeleton w1).
  { destruct (mobile_layout w1); [reflexivity |].
    unfold window_skeleton, window, get_messages_list. cbn.
    destruct (content w1); try reflexivity.
    destruct (decide (r = messages_list)) as [<- | Hne].
    - rewrite lookup_alter_eq. destruct (elements w1 !! r); reflexivity.
    - rewrite lookup_alter_ne by exact Hne. reflexivity. }
  split; [rewrite Hshift; exact Hskel |].
  destruct (mobile_layout w1); cbn; rewrite ?Happ, ?Hc, ?Hls; auto.
Qed.

End MergeShape.

(** ** What a completed pagination request leaves behind *)

Section PaginationResults.

Variable grapheme_segments : jstring -> list jstring.
Variable extended_pictographic : jstring -> bool.

Local Abbreviation is_tapback := (Tapback.is_tapback grapheme_segments extended_pictographic).
Local Abbreviation load_older := (load_older_messages grapheme_segments extended_pictographic).
Local Abbreviation load_newer := (load_newer_messages grapheme_segments extended_pictographic).
Local Abbreviation jump := (handle_jump_to_newest grapheme_segments extended_pictographic).
Local Abbreviation poll := (update_messages_list grapheme_segments extended_pictographic).

Lemma load_older_awaiting w req :
  awaiting (load_older w) = Some req ->
  exists r k,
    get_messages_list w = Some r /\
    load_older w = Await req (with_app (set_is_loading true) w) k /\
    forall res w2,
      k res w2
      = match res with
        | FetchError _ => Return (with_app (set_is_loading false) w2)
        | FetchOk data =>
          Return (with_app (set_is_loading false)
            match rows data with
            | first :: _ =>
              prepend_messages_to_list grapheme_segments extended_pictographic r (rows data)
                (with_app (set_oldest_id (Some (id first)))
                   (with_app (set_oldest_rx_time (rx_time first))
                      (with_app (set_has_more_older (has_more_older (meta data))) w2)))
            | [] => with_app (set_has_more_older false) w2
            end)
        end.
Proof.
  unfold load_older_messages. intros Hawait.
  destruct (messages_is_loading (app w) || negb (messages_has_more_older (app w)));
    [discriminate |].
  destruct (strict_eq (messages_oldest_rx_time (app w)) None); [discriminate |].
  destruct (get_messages_list w) as [r |]; [| discriminate].
  cbn in Hawait. injection Hawait as <-.
  eexists r, _. split; [reflexivity |]. split; [reflexivity |].
  intros [data | e] w2; reflexivity.
Qed.

Lemma load_newer_awaiting w req :
  awaiting (load_newer w) = Some req ->
  exists r k,
    get_messages_list w = Some r /\
    load_newer w = Await req (with_app (set_is_loading true) w) k /\
    forall res w2,
      k res w2
      = match res with
        | FetchError _ => Return (with_app (set_is_loading false) w2)
        | FetchOk data =>
          Return (with_app (set_is_loading false)
            (update_jump_to_newest_button
               match rows data with
               | first :: _ =>
                 append_messages_to_list grapheme_segments extended_pictographic r (rows data)
                   (with_app (set_newest_id (Some (id (List.last (rows data) first))))
                      (with_app (set_newest_rx_time (rx_time (List.last (rows data) first)))
                         (with_app (set_has_more_newer (has_more_newer (meta data))) w2)))
               | [] => with_app (set_has_more_newer false) w2
               end))
        end.
Proof.
  unfold load_newer_messages. intros Hawait.
  destruct (messages_is_loading (app w) || negb (messages_has_more_newer (app w)));
    [discriminate |].
  destruct (strict_eq (messages_newest_rx_time (app w)) None); [discriminate |].
  destruct (get_messages_list w) as [r |]; [| discriminate].
  cbn in Hawait. injection Hawait as <-.
  eexists r, _. split; [reflexivity |]. split; [reflexivity |].
  intros [data | e] w2; reflexivity.
Qed.

Lemma window_skeleton_update_jump w :
  window_skeleton (update_jump_to_newest_button w) = window_skeleton w.
Proof. unfold window_skeleton. rewrite window_update_jump_to_newest_button. reflexivity. Qed.

Lemma local_storage_update_jump w :
  local_storage (update_jump_to_newest_button w) = local_storage w.
Proof. unfold update_jump_to_newest_button. destruct (content w); reflexivity. Qed.

(** X8. A load-older call that gets a page with entries puts the primary
    entries of the page before the window, marked read, and leaves the items
    that were there as they are.  It sets the oldest bound to the first row
    and [has_more_older] from the response; the newest bound,
    [has_more_newer] and the stored read position are left alone. *)
Theorem load_older_prepends_read :
  forall (w : world) (req : fetch_request) (data : api_response)
         (first : message) (rest : list message) (w2 : world) (r : nat) (u : ul),
    awaiting (load_older w) = Some req ->
    get_messages_list w = Some r ->
    rows data = first :: rest ->
    get_messages_list w2 = Some r ->
    elements w2 !! r = Some u ->
    template_message_item (page_templates w2) = true ->
    exists w',
      resume_with (load_older w) (FetchOk data) w2 = Return w' /\
      window_skeleton w'
      = map (entry_skeleton true) (primary_entries is_tapback (rows data))
        ++ window_skeleton w2 /\
      messages_has_more_older (app w') = has_more_older (meta data) /\
      messages_oldest_rx_time (app w') = rx_time first /\
      messages_oldest_id (app w') = Some (id first) /\
      messages_has_more_newer (app w') = messages_has_more_newer (app w2) /\
      messages_newest_rx_time (app w') = messages_newest_rx_time (app w2) /\
      messages_newest_id (app w') = messages_newest_id (app w2) /\
      local_storage w' = local_storage w2 /\
      messages_is_loading (app w') = false.
Proof.
  intros w req data first rest w2 r u Hawait Hr Hrows Hr2 Hu Htpl.
  destruct (load_older_awaiting w req Hawait) as (r' & k & Hr' & Hload & Hk).
  rewrite Hr in Hr'. injection Hr' as <-.
  rewrite Hload. cbn [resume_with]. rewrite Hk. eexists. split; [reflexivity |].
  rewrite Hrows. rewrite <- Hrows.
  set (w3 := with_app (set_oldest_id (Some (id first)))
               (with_app (set_oldest_rx_time (rx_time first))
                  (with_app (set_has_more_older (has_more_older (meta data))) w2))).
  destruct (prepend_messages_live grapheme_segments extended_pictographic r u (rows data)
              w3 Hr2 Hu Htpl) as (Hskel & Happ & _ & Hls).
  cbn [app with_app local_storage].
  split; [exact Hskel |].
  rewrite Happ, Hls. repeat split.
Qed.

(** X9. A load-newer call that gets a page with entries puts the primary
    entries of the page after the window without a read mark, and neither
    the read marks of the items that were there nor the stored read position
    change.  It sets the newest bound to the last row and [has_more_newer]
    from the response; the oldest bound and [has_more_older] are left
    alone. *)
Theorem load_newer_appends_unread :
  forall (w : world) (req : fetch_request) (data : api_response)
         (first : message) (rest : list message) (w2 : world) (r : nat) (u : ul),
    awaiting (load_newer w) = Some req ->
    get_messages_list w = Some r ->
    rows data = first :: rest ->
    get_messages_list w2 = Some r ->
    elements w2 !! r = Some u ->
    template_message_item (page_templates w2) = true ->
    exists w',
      resume_with (load_newer w) (FetchOk data) w2 = Return w' /\
      window_skeleton w'
      = window_skeleton w2
        ++ map (entry_skeleton false) (primary_entries is_tapback (rows data)) /\
      messages_has_more_newer (app w') = has_more_newer (meta data) /\
      messages_newest_rx_time (app w') = rx_time (List.last (rows data) first) /\
      messages_newest_id (app w') = Some (id (List.last (rows data) first)) /\
      messages_has_more_older (app w') = messages_has_more_older (app w2) /\
      messages_oldest_rx_time (app w') = messages_oldest_rx_time (app w2) /\
      messages_oldest_id (app w') = messages_oldest_id (app w2) /\
      local_storage w' = local_storage w2 /\
      messages_is_loading (app w') = false.
Proof.
  intros w req data first rest w2 r u Hawait Hr Hrows Hr2 Hu Htpl.
  destruct (load_newer_awaiting w req Hawait) as (r' & k & Hr' & Hload & Hk).
  rewrite Hr in Hr'. injection Hr' as <-.
  rewrite Hload. cbn [resume_with]. rewrite Hk. eexists. split; [reflexivity |].
  rewrite Hrows. rewrite <- Hrows.
  set (w3 := with_app (set_newest_id (Some (id (List.last (rows data) first))))
               (with_app (set_newest_rx_time (rx_time (List.last (rows data) first)))
                  (with_app (set_has_more_newer (has_more_newer (meta data))) w2))).
  destruct (append_messages_live grapheme_segments extended_pictographic r u (rows data)
              w3 Hr2 Hu Htpl) as (Hskel & Happ & _ & Hls & _).
  cbn [app with_app local_storage].
  rewrite app_update_jump_to_newest_button, local_storage_update_jump.
  split.
  { change (window_skeleton (with_app (set_is_loading false) ?x))
      with (window_skeleton x).
    rewrite window_skeleton_update_jump. exact Hskel. }
  rewrite Happ, Hls. repeat split.
Qed.

End PaginationResults.

Lemma load_older_prepends_read_witness :
  exists w',
    resume (load_older_messages Reference.grapheme_segments Reference.extended_pictographic
              Reference.resumed)
      (FetchOk (Response (Meta false true 9) [Reference.plain 0 99])) = Return w' /\
    window_skeleton w'
    = (1000, Some 99, true) :: window_skeleton Reference.resumed.
Proof.
  assert (Hu : exists u,
            elements (page_of (load_older_messages Reference.grapheme_segments
                                 Reference.extended_pictographic Reference.resumed))
              !! 1%nat = Some u)
    by (vm_compute; eauto).
  destruct Hu as [u Hu].
  destruct (load_older_prepends_read Reference.grapheme_segments
              Reference.extended_pictographic Reference.resumed
              (Request false (Some 0) None (Some 100) false)
              (Response (Meta false true 9) [Reference.plain 0 99])
              (Reference.plain 0 99) []
              (page_of (load_older_messages Reference.grapheme_segments
                          Reference.extended_pictographic Reference.resumed))
              1%nat u)
    as (w' & Hres & Hskel & _);
    [vm_compute; reflexivity | vm_compute; reflexivity | reflexivity
     | vm_compute; reflexivity | exact Hu | vm_compute; reflexivity |].
  exists w'. split; [exact Hres |]. rewrite Hskel. vm_compute. reflexivity.
Defined.

Lemma load_newer_appends_unread_witness :
  exists w',
    resume (load_newer_messages Reference.grapheme_segments Reference.extended_pictographic
              Reference.resumed)
      (FetchOk Reference.page_after_104) = Return w' /\
    window_skeleton w'
    = window_skeleton Reference.resumed ++ [(1006, Some 105, false); (1007, Some 106, false)].
Proof.
  assert (Hu : exists u,
            elements (page_of (load_newer_messages Reference.grapheme_segments
                                 Reference.extended_pictographic Reference.resumed))
              !! 1%nat = Some u)
    by (vm_compute; eauto).
  destruct Hu as [u Hu].
  destruct (load_newer_appends_unread Reference.grapheme_segments
              Reference.extended_pictographic Reference.resumed
              (Request false (Some 0) (Some 104) None false)
              Reference.page_after_104
              (Reference.plain 6 105) [Reference.plain 7 106]
              (page_of (load_newer_messages Reference.grapheme_segments
                          Reference.extended_pictographic Reference.resumed))
              1%nat u)
    as (w' & Hres & Hskel & _);
    [vm_compute; reflexivity | vm_compute; reflexivity | reflexivity
     | vm_compute; reflexivity | exact Hu | vm_compute; reflexivity |].
  exists w'. split; [exact Hres |]. rewrite Hskel. vm_compute. reflexivity.
Defined.

(** ** The poll and the jump to the newest page *)

Section PollAndJump.

Variable grapheme_segments : jstring -> list jstring.
Variable extended_pictographic : jstring -> bool.

Local Abbreviation is_tapback := (Tapback.is_tapback grapheme_segments extended_pictographic).
Local Abbreviation jump := (handle_jump_to_newest grapheme_segments extended_pictographic).
Local Abbreviation poll := (update_messages_list grapheme_segments extended_pictographic).
Local Abbreviation load_older := (load_older_messages grapheme_segments extended_pictographic).
Local Abbreviation load_newer := (load_newer_messages grapheme_segments extended_pictographic).

Lemma poll_awaiting is_dm w req :
  awaiting (poll is_dm w) = Some req ->
  exists r k,
    get_messages_list w = Some r /\
    poll is_dm w = Await req w k /\
    forall res w2,
      k res w2
      = match res with
        | FetchError _ => Return w2
        | FetchOk data =>
          Return (update_jump_to_newest_button
            (with_app (set_total (total (meta data)))
               (with_app (set_has_more_newer (has_more_newer (meta data)))
                  match rows data with
                  | first :: _ =>
                    append_messages_to_list grapheme_segments extended_pictographic r
                      (rows data)
                      (with_app (set_newest_id (Some (id (List.last (rows data) first))))
                         (with_app
                            (set_newest_rx_time (rx_time (List.last (rows data) first)))
                            w2))
                  | [] => w2
                  end)))
        end.
Proof.
  unfold update_messages_list. intros Hawait.
  destruct (get_messages_list w) as [r |]; [| discriminate].
  destruct (messages_is_loading (app w)); [discriminate |].
  destruct (strict_eq (messages_newest_rx_time (app w)) None); [discriminate |].
  cbn in Hawait. injection Hawait as <-.
  eexists r, _. split; [reflexivity |]. split; [reflexivity |].
  intros [data | e] w2; reflexivity.
Qed.

(** X10. The poll folds a page in silently.  Whatever the page, the items on
    display keep their place and their read mark, the new primary entries
    follow them unread, and the stored read position, the scroll offset of
    the list, the oldest bound and [has_more_older] stay as they are;
    [has_more_newer] and the total follow the response also when the page is
    empty. *)
Theorem poll_appends_silently :
  forall (is_dm : bool) (w : world) (req : fetch_request) (data : api_response)
         (w2 : world) (r : nat) (u : ul),
    awaiting (poll is_dm w) = Some req ->
    get_messages_list w = Some r ->
    get_messages_list w2 = Some r ->
    elements w2 !! r = Some u ->
    template_message_item (page_templates w2) = true ->
    exists w',
      resume_with (poll is_dm w) (FetchOk data) w2 = Return w' /\
      window_skeleton w'
      = window_skeleton w2
        ++ map (entry_skeleton false) (primary_entries is_tapback (rows data)) /\
      messages_has_more_newer (app w') = has_more_newer (meta data) /\
      messages_total (app w') = total (meta data) /\
      messages_has_more_older (app w') = messages_has_more_older (app w2) /\
      messages_oldest_rx_time (app w') = messages_oldest_rx_time (app w2) /\
      messages_oldest_id (app w') = messages_oldest_id (app w2) /\
      messages_newest_rx_time (app w')
      = match rows data with
        | [] => messages_newest_rx_time (app w2)
        | first :: _ => rx_time (List.last (rows data) first)
        end /\
      local_storage w' = local_storage w2 /\
      window_scroll_top w' = window_scroll_top w2.
Proof.
  intros is_dm w req data w2 r u Hawait Hr Hr2 Hu Htpl.
  destruct (poll_awaiting is_dm w req Hawait) as (r' & k & Hr' & Hpoll & Hk).
  rewrite Hr in Hr'. injection Hr' as <-.
  rewrite Hpoll. cbn [resume_with]. rewrite Hk. eexists. split; [reflexivity |].
  rewrite app_update_jump_to_newest_button, local_storage_update_jump,
    window_skeleton_update_jump.
  assert (Hscroll : forall x, window_scroll_top (update_jump_to_newest_button x)
                              = window_scroll_top x).
  { intros x. unfold window_scroll_top, update_jump_to_newest_button, get_messages_list.
    destruct (content x) eqn:Hc; cbn; rewrite ?Hc; reflexivity. }
  rewrite Hscroll.
  destruct (rows data) as [| first rest] eqn:Hrows.
  - cbn. rewrite app_nil_r. repeat split.
  - rewrite <- Hrows.
    set (w3 := with_app (set_newest_id (Some (id (List.last (rows data) first))))
                 (with_app (set_newest_rx_time (rx_time (List.last (rows data) first)))
                    w2)).
    destruct (append_messages_live grapheme_segments extended_pictographic r u (rows data)
                w3 Hr2 Hu Htpl) as (Hskel & Happ & _ & Hls & Hst).
    cbn [app with_app local_storage].
    change (window_skeleton (with_app ?f (with_app ?g ?x))) with (window_skeleton x).
    change (window_scroll_top (with_app ?f (with_app ?g ?x))) with (window_scroll_top x).
    rewrite Hskel, Happ, Hls, Hst. repeat split.
Qed.








(** X12. A rejected fetch changes nothing.  Load-older, load-newer and the
    poll leave the page exactly as it was before the call, the loading guard
    released; a jump to the newest page has only emptied the map of pending
    tapbacks. *)
Theorem rejected_fetch_changes_nothing :
  forall (w : world) (e : string) (is_dm : bool),
    page_of (run (load_older w) [FetchError e]) = w /\
    page_of (run (load_newer w) [FetchError e]) = w /\
    page_of (run (poll is_dm w) [FetchError e]) = w /\
    (page_of (run (jump w) [FetchError e]) = w \/
     page_of (run (jump w) [FetchError e]) = clear_pending_tapbacks w).
Proof.
  intros w e is_dm.
  assert (Hguard : forall x, messages_is_loading (app x) = false ->
            with_app (set_is_loading false) (with_app (set_is_loading true) x) = x).
  { intros [[] ? ? ? ? ? ? ?] Hx. cbn in Hx. subst. reflexivity. }
  split; [| split; [| split]].
  - unfold load_older_messages.
    destruct (messages_is_loading (app w)) eqn:Hl; [reflexivity |].
    destruct (negb (messages_has_more_older (app w))); [reflexivity |].
    cbn [orb].
    destruct (strict_eq (messages_oldest_rx_time (app w)) None); [reflexivity |].
    destruct (get_messages_list w); [| reflexivity].
    cbn. apply Hguard, Hl.
  - unfold load_newer_messages.
    destruct (messages_is_loading (app w)) eqn:Hl; [reflexivity |].
    destruct (negb (messages_has_more_newer (app w))); [reflexivity |].
    cbn [orb].
    destruct (strict_eq (messages_newest_rx_time (app w)) None); [reflexivity |].
    destruct (get_messages_list w); [| reflexivity].
    cbn. apply Hguard, Hl.
  - unfold update_messages_list.
    destruct (get_messages_list w); [| reflexivity].
    destruct (messages_is_loading (app w)); [reflexivity |].
    destruct (strict_eq (messages_newest_rx_time (app w)) None); reflexivity.
  - unfold handle_jump_to_newest.
    destruct (get_messages_list w); [| left; reflexivity].
    destruct (messages_is_loading (app w)) eqn:Hl; [left; reflexivity |].
    right. cbn. unfold clear_pending_tapbacks.
    rewrite <- (Hguard w Hl) at 2. reflexivity.
Qed.

End PollAndJump.

Lemma poll_appends_silently_witness :
  exists w',
    resume (update_messages_list Reference.grapheme_segments Reference.extended_pictographic
              false Reference.resumed)
      (FetchOk Reference.page_after_104) = Return w' /\
    window_skeleton w'
    = window_skeleton Reference.resumed ++ [(1006, Some 105, false); (1007, Some 106, false)].
Proof.
  assert (Hu : exists u,
            elements (page_of (update_messages_list Reference.grapheme_segments
                                 Reference.extended_pictographic false Reference.resumed))
              !! 1%nat = Some u)
    by (vm_compute; eauto).
  destruct Hu as [u Hu].
  destruct (poll_appends_silently Reference.grapheme_segments
              Reference.extended_pictographic false Reference.resumed
              (Request false (Some 0) (Some 104) None false)
              Reference.page_after_104
              (page_of (update_messages_list Reference.grapheme_segments
                          Reference.extended_pictographic false Reference.resumed))
              1%nat u)
    as (w' & Hres & Hskel & _);
    [vm_compute; reflexivity | vm_compute; reflexivity
     | vm_compute; reflexivity | exact Hu | vm_compute; reflexivity |].
  exists w'. split; [exact Hres |]. rewrite Hskel. vm_compute. reflexivity.
Defined.

